(** * Makeover: a shallow embedding of the build engine of [main.py]

    The first part embeds the program: the Python string primitives the
    parser and the expander use, the ordered dictionary,
    [BuildSystem.expand_vars], [BuildSystem.parse],
    [BuildSystem.needs_rebuild], [BuildSystem.build] and [BuildSystem.run].
    The second part states and proves its properties.

    Modelling conventions.
    - A Python [str] is a [string]; its characters are the code points
      below 256.
    - A Python [dict] is an association list in insertion order with
      unique keys (assigning to an existing key keeps its position).
    - The file system and the shell are an abstract world: the executor is
      parameterised by [os.path.exists], [os.path.getmtime] and
      [subprocess.run], and threads the world explicitly.
    - A raised exception is a value of [Exception]; console output is not
      modelled. *)

From Stdlib Require Import String Ascii List ZArith Bool Arith Lia Relations.
Import ListNotations.
Local Open Scope list_scope.
Local Open Scope string_scope.

(* ================================================================== *)
(** ** Python string primitives *)
(* ================================================================== *)

Module PyStr.

Definition code (c : ascii) : nat := nat_of_ascii c.

(** [str.isspace] on one character, for the code points below 256:
    TAB, LF, VT, FF, CR, FS, GS, RS, US, SPACE, NEL and NBSP. *)
Definition isspace (c : ascii) : bool :=
  let n := code c in
  (((9 <=? n) && (n <=? 13)) || ((28 <=? n) && (n <=? 32))
   || (n =? 133) || (n =? 160))%nat.

(** [str.lower] on one character, for the code points below 256. *)
Definition lower_char (c : ascii) : ascii :=
  let n := code c in
  if (((65 <=? n) && (n <=? 90))
      || ((192 <=? n) && (n <=? 222) && negb (n =? 215)))%nat
  then ascii_of_nat (n + 32) else c.

Fixpoint lower (s : string) : string :=
  match s with
  | EmptyString => EmptyString
  | String c s' => String (lower_char c) (lower s')
  end.

Fixpoint lstrip (s : string) : string :=
  match s with
  | EmptyString => EmptyString
  | String c s' => if isspace c then lstrip s' else s
  end.

Fixpoint rstrip (s : string) : string :=
  match s with
  | EmptyString => EmptyString
  | String c s' =>
      match rstrip s' with
      | EmptyString => if isspace c then EmptyString else String c EmptyString
      | r => String c r
      end
  end.

Definition strip (s : string) : string := lstrip (rstrip s).

(** [s.startswith(p)] *)
Definition startswith (s p : string) : bool := prefix p s.

Fixpoint rev (s : string) : string :=
  match s with
  | EmptyString => EmptyString
  | String c s' => rev s' ++ String c EmptyString
  end.

(** [s.endswith(p)] *)
Definition endswith (s p : string) : bool := prefix (rev p) (rev s).

(** [sub in s] *)
Fixpoint contains (sub s : string) : bool :=
  prefix sub s ||
  match s with
  | EmptyString => false
  | String _ s' => contains sub s'
  end.

(** [s[n:]] for [n >= 0] *)
Fixpoint drop (n : nat) (s : string) : string :=
  match n, s with
  | O, _ => s
  | S _, EmptyString => EmptyString
  | S k, String _ s' => drop k s'
  end.

(** [s[:-1]] *)
Fixpoint init (s : string) : string :=
  match s with
  | EmptyString => EmptyString
  | String c EmptyString => EmptyString
  | String c s' => String c (init s')
  end.

(** [s.split(sep, 1)] for a one-character [sep]: the text before the
    first [sep] and the text after it, or [None] when [sep] is absent
    (Python then returns the one-element list [[s]]). *)
Fixpoint split_once (sep : ascii) (s : string) : option (string * string) :=
  match s with
  | EmptyString => None
  | String c s' =>
      if Ascii.eqb c sep then Some (EmptyString, s')
      else match split_once sep s' with
           | Some (a, b) => Some (String c a, b)
           | None => None
           end
  end.

(** [s.split()]: the maximal runs of non-whitespace characters.
    [cur] is the run read so far. *)
Fixpoint split_ws_go (cur : string) (s : string) : list string :=
  match s with
  | EmptyString =>
      match cur with EmptyString => [] | _ => [cur] end
  | String c s' =>
      if isspace c
      then match cur with
           | EmptyString => split_ws_go EmptyString s'
           | _ => cur :: split_ws_go EmptyString s'
           end
      else split_ws_go (cur ++ String c EmptyString) s'
  end.

Definition split_ws (s : string) : list string := split_ws_go EmptyString s.

(** [sep.join(l)] *)
Definition join (sep : string) (l : list string) : string := String.concat sep l.

(** [s.replace(old, new)] for a non-empty [old]: scan left to right; at
    a position where [old] starts, emit [new] and skip over [old];
    elsewhere copy the character.  [skip] counts the characters of the
    current match still to be passed over. *)
Fixpoint replace_from (old new : string) (skip : nat) (s : string) : string :=
  match s with
  | EmptyString => EmptyString
  | String c s' =>
      match skip with
      | S k => replace_from old new k s'
      | O =>
          if prefix old s
          then new ++ replace_from old new (String.length old - 1) s'
          else String c (replace_from old new 0 s')
      end
  end.

(** For the empty [old] Python inserts [new] before every character and
    at the end. *)
Fixpoint intersperse (new : string) (s : string) : string :=
  match s with
  | EmptyString => new
  | String c s' => new ++ String c (intersperse new s')
  end.

Definition replace (s old new : string) : string :=
  match old with
  | EmptyString => intersperse new s
  | _ => replace_from old new 0 s
  end.

End PyStr.

(* ================================================================== *)
(** ** Python dictionaries with string keys *)
(* ================================================================== *)

Module PyDict.

Definition t (V : Type) : Type := list (string * V).

Definition empty {V} : t V := [].

(** [d.get(k)], i.e. [d[k]] with [None] for [KeyError] *)
Fixpoint get {V} (d : t V) (k : string) : option V :=
  match d with
  | [] => None
  | (k', v) :: d' => if String.eqb k' k then Some v else get d' k
  end.

(** [k in d] *)
Definition mem {V} (d : t V) (k : string) : bool :=
  match get d k with Some _ => true | None => false end.

(** [d[k] = v]: overwrite in place, or append a new entry *)
Fixpoint set {V} (d : t V) (k : string) (v : V) : t V :=
  match d with
  | [] => [(k, v)]
  | (k', v') :: d' =>
      if String.eqb k' k then (k', v) :: d' else (k', v') :: set d' k v
  end.

(** [d.items()] *)
Definition items {V} (d : t V) : list (string * V) := d.

Definition keys {V} (d : t V) : list string := map fst d.

Definition values {V} (d : t V) : list V := map snd d.

End PyDict.

(* ================================================================== *)
(** ** The data model *)
(* ================================================================== *)

(** The dictionary stored under each target name by [parse]. *)
Record Target : Type := mkTarget {
  deps : list string;
  commands : list string;
  doc : string;
  group : string
}.

(** The fields of [BuildSystem] that [parse] fills and the executor reads. *)
Record BuildSystem : Type := mkBuildSystem {
  variables : PyDict.t string;
  targets : PyDict.t Target;
  first_target : option string
}.

(** The exceptions the engine raises.  The first six are [BuildError],
    told apart by their message; [KeyError] and [IndexError] are the
    interpreter's own. *)
Inductive Exception : Type :=
| BuildfileNotFound                         (* "Buildfile '...' not found." *)
| OrphanCommand (line_num : nat)            (* "Line n: Command found outside of target block." *)
| SyntaxError (line_num : nat)              (* "Line n: Syntax error." *)
| CircularDependency (target_name : string) (* "Circular dependency detected involving ..." *)
| NoRuleToMake (target_name : string)       (* "No rule to make target '...' and file not found." *)
| CommandFailed (expanded_cmd : string)     (* "Command failed: ..." *)
| KeyError (key : string)
| IndexError.

(* ================================================================== *)
(** ** [BuildSystem.expand_vars] *)
(* ================================================================== *)

(** One iteration of the loop body: [f"${key}"] is ["$" + key] and
    [f"${{{key}}}"] is ["${" + key + "}"]. *)
Definition expand_one (text : string) (kv : string * string) : string :=
  let (key, val) := kv in
  let text := PyStr.replace text ("$" ++ key) val in
  PyStr.replace text ("${" ++ key ++ "}") val.

Definition expand_vars (self : BuildSystem) (text : string) : string :=
  fold_left expand_one (PyDict.items (variables self)) text.

(* ================================================================== *)
(** ** [BuildSystem.parse] *)
(* ================================================================== *)

Inductive result (A : Type) : Type :=
| Ok (a : A)
| Raise (e : Exception).
Arguments Ok {A} a.
Arguments Raise {A} e.

Definition TAB : string := String (ascii_of_nat 9) EmptyString.
Definition LF : string := String (ascii_of_nat 10) EmptyString.

(** The object under construction together with the three local
    variables of the loop. *)
Record ParserState : Type := mkParserState {
  model : BuildSystem;
  current_target : option string;
  current_group : string;
  pending_doc : list string
}.

(** Truth value of [current_target] and of [first_target]: [None] and the
    empty string are false. *)
Definition truthy (o : option string) : bool :=
  match o with
  | Some (String _ _) => true
  | _ => false
  end.

Definition is_empty (s : string) : bool :=
  match s with EmptyString => true | _ => false end.

(** [stripped.lower().startswith('[group:') and stripped.endswith(']')] *)
Definition is_group_header (stripped : string) : bool :=
  PyStr.startswith (PyStr.lower stripped) "[group:" && PyStr.endswith stripped "]".

(** [line.startswith(' ') or line.startswith('\t')] *)
Definition is_indented (line : string) : bool :=
  PyStr.startswith line " " || PyStr.startswith line TAB.

(** ['=' in stripped and ':' not in stripped] *)
Definition is_assignment (stripped : string) : bool :=
  PyStr.contains "=" stripped && negb (PyStr.contains ":" stripped).

(** [self.targets[current_target]['commands'].append(stripped)] *)
Definition append_command (ts : PyDict.t Target) (name stripped : string)
  : result (PyDict.t Target) :=
  match PyDict.get ts name with
  | None => Raise (KeyError name)
  | Some info =>
      Ok (PyDict.set ts name
            (mkTarget (deps info) (commands info ++ [stripped]) (doc info) (group info)))
  end.

(** The body of the [for line_num, line in enumerate(f, 1)] loop; each
    [continue] is a returned state. *)
Definition parse_line (line_num : nat) (line : string) (ps : ParserState)
  : result ParserState :=
  let self := model ps in
  let stripped := PyStr.strip line in
  (* Group definition *)
  if is_group_header stripped then
    Ok (mkParserState self None
          (PyStr.strip (PyStr.drop 7 (PyStr.init stripped))) [])
  (* Empty lines *)
  else if is_empty stripped then
    if truthy (current_target ps) then Ok ps
    else Ok (mkParserState self (current_target ps) (current_group ps) [])
  (* Comments *)
  else if PyStr.startswith stripped "#" then
    if negb (truthy (current_target ps)) then
      let comment_content := PyStr.strip (PyStr.drop 1 stripped) in
      Ok (mkParserState self (current_target ps) (current_group ps)
            (pending_doc ps ++ [comment_content]))
    else Ok ps
  (* Indentation (commands) *)
  else if is_indented line then
    match current_target ps with
    | Some (String c name') =>
        let name := String c name' in
        match append_command (targets self) name stripped with
        | Raise e => Raise e
        | Ok ts =>
            Ok (mkParserState
                  (mkBuildSystem (variables self) ts (first_target self))
                  (current_target ps) (current_group ps) [])
        end
    | _ => Raise (OrphanCommand line_num)
    end
  (* Variable assignment *)
  else if is_assignment stripped then
    match PyStr.split_once "=" stripped with
    | None => Raise IndexError
    | Some (part0, part1) =>
        let key := PyStr.strip part0 in
        let val := PyStr.strip part1 in
        Ok (mkParserState
              (mkBuildSystem (PyDict.set (variables self) key val)
                 (targets self) (first_target self))
              None (current_group ps) [])
    end
  (* Target definition *)
  else if PyStr.contains ":" stripped then
    match PyStr.split_once ":" stripped with
    | None => Raise IndexError
    | Some (part0, part1) =>
        let target_name := PyStr.strip part0 in
        let deps_str := PyStr.strip part1 in
        let dependencies := PyStr.split_ws deps_str in
        let doc_string :=
          match pending_doc ps with
          | [] => ""
          | _ => PyStr.join " " (pending_doc ps)
          end in
        let ts := PyDict.set (targets self) target_name
                    (mkTarget dependencies [] doc_string (current_group ps)) in
        let first :=
          match first_target self with
          | None => Some target_name
          | Some t => Some t
          end in
        Ok (mkParserState (mkBuildSystem (variables self) ts first)
              (Some target_name) (current_group ps) [])
    end
  else Raise (SyntaxError line_num).

Fixpoint parse_lines (line_num : nat) (lines : list string) (ps : ParserState)
  : result ParserState :=
  match lines with
  | [] => Ok ps
  | line :: rest =>
      match parse_line line_num line ps with
      | Raise e => Raise e
      | Ok ps' => parse_lines (S line_num) rest ps'
      end
  end.

(** The local variables before the first line: [current_target = None],
    [current_group = "General"], [pending_doc = []]. *)
Definition initial_state (self : BuildSystem) : ParserState :=
  mkParserState self None "General" [].

(** The state [__init__] leaves. *)
Definition new_BuildSystem : BuildSystem := mkBuildSystem [] [] None.

(** [parse]: [buildfile] is [None] when the file does not exist and
    otherwise the lines the file object yields, each with its line end. *)
Definition parse (self : BuildSystem) (buildfile : option (list string))
  : result BuildSystem :=
  match buildfile with
  | None => Raise BuildfileNotFound
  | Some lines =>
      match parse_lines 1 lines (initial_state self) with
      | Raise e => Raise e
      | Ok ps => Ok (model ps)
      end
  end.

(* ================================================================== *)
(** ** The executor: [needs_rebuild], [build] and [run] *)
(* ================================================================== *)

(** What the executor asks of its environment.  [getmtime] is read only
    for paths that exist; time stamps are compared, never computed with.
    [subprocess_run cmd w] runs [cmd] through the shell in world [w] and
    gives the world it leaves and the return code. *)
Class OS : Type := mkOS {
  World : Type;
  path_exists : World -> string -> bool;
  getmtime : World -> string -> Z;
  subprocess_run : string -> World -> World * Z
}.

(** Result of a call: returned, raised, or recursion budget used up (the
    last never happens for [build], see [build_from_not_exhausted]). *)
Inductive outcome : Type :=
| Done
| Raised (e : Exception)
| Exhausted.

Section Executor.

Context {os : OS}.

(** The world and the shell commands run so far, oldest first, each
    with its return code. *)
Record State : Type := mkState {
  world : World;
  trace : list (string * Z)
}.

(** The [for dep in deps] loop of [needs_rebuild]. *)
Fixpoint needs_rebuild_loop (self : BuildSystem) (w : World)
         (target_mtime : Z) (deps : list string) : bool :=
  match deps with
  | [] => false
  | dep :: rest =>
      let missing_source :=
        if negb (path_exists w dep) then
          if PyDict.mem (targets self) dep then false
          else if negb (path_exists w dep) then true else false
        else false in
      if missing_source then true
      else if path_exists w dep then
        let dep_mtime := getmtime w dep in
        if (dep_mtime >? target_mtime)%Z then true
        else needs_rebuild_loop self w target_mtime rest
      else needs_rebuild_loop self w target_mtime rest
  end.

Definition needs_rebuild (self : BuildSystem) (w : World)
           (target : string) (deps : list string) : bool :=
  if negb (path_exists w target) then true
  else
    let target_mtime := getmtime w target in
    needs_rebuild_loop self w target_mtime deps.

(** The [for cmd in target_info['commands']] loop: [check=True] raises
    on a non-zero return code. *)
Fixpoint run_commands (self : BuildSystem) (cmds : list string) (st : State)
  : outcome * State :=
  match cmds with
  | [] => (Done, st)
  | cmd :: rest =>
      let expanded_cmd := expand_vars self cmd in
      let (w', returncode) := subprocess_run expanded_cmd (world st) in
      let st' := mkState w' (trace st ++ [(expanded_cmd, returncode)]) in
      if (returncode =? 0)%Z then run_commands self rest st'
      else (Raised (CommandFailed expanded_cmd), st')
  end.

(** A [for] loop whose body may raise. *)
Fixpoint for_each {A : Type} (body : A -> State -> outcome * State)
         (l : list A) (st : State) : outcome * State :=
  match l with
  | [] => (Done, st)
  | x :: rest =>
      match body x st with
      | (Done, st') => for_each body rest st'
      | r => r
      end
  end.

(** [target_name in visited] *)
Definition in_set (visited : list string) (target_name : string) : bool :=
  existsb (String.eqb target_name) visited.

(** [build(target_name, visited)] with a recursion budget.  [visited]
    is the caller's set; adding to it is [cons], and each dependency
    receives the extended set as its own copy. *)
Fixpoint build_fuel (fuel : nat) (self : BuildSystem) (target_name : string)
         (visited : list string) (st : State) : outcome * State :=
  match fuel with
  | O => (Exhausted, st)
  | S fuel' =>
      if in_set visited target_name
      then (Raised (CircularDependency target_name), st)
      else
        let visited := target_name :: visited in
        match PyDict.get (targets self) target_name with
        | None =>
            if negb (path_exists (world st) target_name)
            then (Raised (NoRuleToMake target_name), st)
            else (Done, st)
        | Some target_info =>
            let deps := deps target_info in
            match for_each (fun dep => build_fuel fuel' self dep visited) deps st with
            | (Done, st1) =>
                let should_run := needs_rebuild self (world st1) target_name deps in
                if should_run
                then run_commands self (commands target_info) st1
                else (Done, st1)
            | r => r
            end
        end
  end.

(** Every nested call adds a target name that was not in [visited], so
    the nesting depth is bounded by the number of targets plus one. *)
Definition build_from (self : BuildSystem) (target_name : string)
           (visited : list string) (st : State) : outcome * State :=
  build_fuel (S (List.length (targets self))) self target_name visited st.

(** [build(target_name)], with [visited=None]. *)
Definition build (self : BuildSystem) (target_name : string) (st : State)
  : outcome * State :=
  build_from self target_name [] st.

(** [run]: [argv] is [sys.argv].  [Raised e] stands for printing [e] and
    [sys.exit(1)]; the listing only prints. *)
Definition run (argv : list string) (buildfile : option (list string))
           (st : State) : outcome * State :=
  match parse new_BuildSystem buildfile with
  | Raise e => (Raised e, st)
  | Ok self =>
      if existsb (String.eqb "--list") argv || existsb (String.eqb "-l") argv
      then (Done, st)
      else
        let targets_to_build :=
          filter (fun arg => negb (PyStr.startswith arg "-")) (tl argv) in
        match targets_to_build with
        | [] =>
            if truthy (first_target self)
            then match first_target self with
                 | Some t => for_each (build self) [t] st
                 | None => (Done, st)
                 end
            else (Done, st)
        | _ => for_each (build self) targets_to_build st
        end
  end.

End Executor.

(* ================================================================== *)
(** ** The listing [run] prints for [--list] *)
(* ================================================================== *)

Definition ESC : string := String (ascii_of_nat 27) EmptyString.

(** The body of [for t_name, t_info in self.targets.items()]: the group
    is entered on first sight, then the row is appended to its list. *)
Definition group_step (grouped : PyDict.t (list (string * string)))
           (item : string * Target) : PyDict.t (list (string * string)) :=
  let (t_name, t_info) := item in
  let grp := group t_info in
  let grouped :=
    if negb (PyDict.mem grouped grp) then PyDict.set grouped grp [] else grouped in
  match PyDict.get grouped grp with
  | Some rows => PyDict.set grouped grp (rows ++ [(t_name, doc t_info)])%list
  | None => grouped
  end.

Definition group_targets (self : BuildSystem)
  : PyDict.t (list (string * string)) :=
  fold_left group_step (PyDict.items (targets self)) [].

(** [max(len(t[0]) for t in targets) if targets else 0] *)
Definition max_len (rows : list (string * string)) : nat :=
  match rows with
  | [] => 0
  | _ => list_max (map (fun t => String.length (fst t)) rows)
  end.

(** [" " * n]; a negative [n] gives the empty string. *)
Fixpoint spaces_nat (n : nat) : string :=
  match n with
  | O => EmptyString
  | S k => String " " (spaces_nat k)
  end.

Definition spaces (n : Z) : string := spaces_nat (Z.to_nat n).

(** [" " * (max_len - len(t_name) + 2)] *)
Definition padding (max_len : nat) (t_name : string) : string :=
  spaces (Z.of_nat max_len - Z.of_nat (String.length t_name) + 2).

(** The line printed for one target. *)
Definition row_line (max_len : nat) (row : string * string) : string :=
  let (t_name, t_doc) := row in
  let doc_str :=
    if is_empty t_doc then "" else ESC ++ "[90m# " ++ t_doc ++ ESC ++ "[0m" in
  "  " ++ ESC ++ "[1;34m" ++ t_name ++ ESC ++ "[0m" ++ padding max_len t_name
  ++ doc_str.

(** The lines printed for one group: its heading, then its targets. *)
Definition group_lines (entry : string * list (string * string)) : list string :=
  let (grp_name, rows) := entry in
  (LF ++ ESC ++ "[1;35m" ++ grp_name ++ ESC ++ "[0m:")
    :: map (row_line (max_len rows)) rows.

(** Everything the listing prints, one element per [print]. *)
Definition list_targets (self : BuildSystem) : list string :=
  "Available targets:"
    :: flat_map group_lines (PyDict.items (group_targets self)).

(** A small concrete environment for examples: the world is a table of
    files with their time stamps; [touch f] creates or refreshes [f],
    [false] fails, every other command succeeds and changes nothing. *)
Module Demo.

Definition files : Type := PyDict.t Z.

Definition newest (w : files) : Z :=
  fold_right Z.max 0%Z (PyDict.values w).

Definition shell (cmd : string) (w : files) : files * Z :=
  if prefix "touch " cmd
  then (PyDict.set w (PyStr.drop 6 cmd) (newest w + 1)%Z, 0%Z)
  else if String.eqb cmd "false" then (w, 1%Z)
  else (w, 0%Z).

Definition os : OS :=
  mkOS files
       (fun w p => PyDict.mem w p)
       (fun w p => match PyDict.get w p with Some t => t | None => 0%Z end)
       shell.

End Demo.

(** ** Vocabulary of the statements *)

(** The two spellings of a reference to variable [key]. *)
Definition dollar (key : string) : string := "$" ++ key.
Definition braced (key : string) : string := "${" ++ key ++ "}".

(** No variable of [kvs] is referred to in [text], in either spelling. *)
Definition untouched_by (kvs : list (string * string)) (text : string) : bool :=
  forallb (fun kv => negb (PyStr.contains (dollar (fst kv)) text)
                     && negb (PyStr.contains (braced (fst kv)) text)) kvs.

(** [text] is [segs[0] + tok + segs[1] + tok + ... + last] and this is the
    way [text.split(tok)] cuts it: [tok] does not start inside a segment. *)
Definition split_by (tok : string) (segs : list string) (last : string) : bool :=
  forallb (fun seg => negb (PyStr.contains tok (seg ++ PyStr.init tok))) segs
  && negb (PyStr.contains tok last).

(** What makes one dependency a reason to rebuild a target whose file
    has time stamp [target_mtime]. *)
Definition triggers {os : OS} (self : BuildSystem) (w : World)
           (target_mtime : Z) (dep : string) : Prop :=
  (path_exists w dep = true /\ (getmtime w dep > target_mtime)%Z)
  \/ (path_exists w dep = false /\ PyDict.mem (targets self) dep = false).

(** The dependency graph: [t] is a known target and lists [d]. *)
Definition dep_edge (self : BuildSystem) (t d : string) : Prop :=
  exists info, PyDict.get (targets self) t = Some info /\ In d (deps info).

(** [d] is [t] or a transitive dependency of [t]. *)
Definition reach (self : BuildSystem) : string -> string -> Prop :=
  clos_refl_trans_1n string (dep_edge self).

(** [d] depends on itself through one or more edges. *)
Definition on_cycle (self : BuildSystem) (d : string) : Prop :=
  clos_trans_1n string (dep_edge self) d d.

Definition acyclic (self : BuildSystem) : Prop :=
  forall d, ~ on_cycle self d.

(** Number of table entries whose name is not in [visited]: the budget a
    call of [build] still needs is bounded by it. *)
Definition unvisited (self : BuildSystem) (visited : list string) : nat :=
  List.length (filter (fun kv => negb (existsb (String.eqb (fst kv)) visited))
                      (targets self)).

(** The first entry of the dependency list of [t], when [t] is a target
    with dependencies. *)
Definition first_dep (self : BuildSystem) (t : string) : option string :=
  match PyDict.get (targets self) t with
  | Some info => hd_error (deps info)
  | None => None
  end.

(** Following first dependencies from [t] passes through [path] and
    arrives at [x]. *)
Fixpoint follows_first_deps (self : BuildSystem) (t : string)
         (path : list string) (x : string) : bool :=
  match path with
  | [] => match first_dep self t with
          | Some d => String.eqb d x
          | None => false
          end
  | u :: path' =>
      match first_dep self t with
      | Some d => String.eqb d u && follows_first_deps self u path' x
      | None => false
      end
  end.

Fixpoint distinct (l : list string) : bool :=
  match l with
  | [] => true
  | x :: r => negb (existsb (String.eqb x) r) && distinct r
  end.

(** A certificate of acyclicity that can be computed: every listed
    dependency has a smaller rank than the target that lists it. *)
Definition ranks_decrease (self : BuildSystem) (rank : string -> nat) : bool :=
  forallb (fun kv => forallb (fun d => rank d <? rank (fst kv))%nat
                             (deps (snd kv)))
          (targets self).

(** The file of [t] and the files of its transitive dependencies all
    exist, and no file is older than the file of a dependency it lists. *)
Definition up_to_date {os : OS} (self : BuildSystem) (w : World) (t : string)
  : Prop :=
  forall d, reach self t d ->
    path_exists w d = true
    /\ forall info e, PyDict.get (targets self) d = Some info ->
                      In e (deps info) ->
                      (getmtime w e <= getmtime w d)%Z.

(** The same, computed over a list [names] of names that is closed under
    listed dependencies. *)
Definition fresh_within {os : OS} (self : BuildSystem) (w : World)
           (names : list string) : bool :=
  forallb (fun d =>
             path_exists w d
             && match PyDict.get (targets self) d with
                | Some info =>
                    forallb (fun e => existsb (String.eqb e) names
                                      && (getmtime w e <=? getmtime w d)%Z)
                            (deps info)
                | None => true
                end)
          names.

(** Every command of a stretch of the trace returned zero. *)
Definition all_zero (tr : list (string * Z)) : Prop :=
  Forall (fun x => snd x = 0%Z) tr.

(** The trace entry of a command that is run and succeeds. *)
Definition succeeded (self : BuildSystem) (cmd : string) : string * Z :=
  (expand_vars self cmd, 0%Z).

(** What a call that started in [st] and ended as [res] has run: commands
    that returned zero, except that when the call raised "Command failed"
    the last command run is the one reported, with a non-zero code. *)
Definition failure_is_last {os : OS} (st : State) (res : outcome * State)
  : Prop :=
  exists new,
    trace (snd res) = (trace st ++ new)%list
    /\ match fst res with
       | Raised (CommandFailed c) =>
           exists ok rc, new = (ok ++ [(c, rc)])%list /\ rc <> 0%Z /\ all_zero ok
       | _ => all_zero new
       end.

(** A line that falls through every case of the loop body: not a group
    header, not blank, not a comment, not indented, no [=] without [:],
    and no [:]. *)
Definition malformed (line : string) : bool :=
  let stripped := PyStr.strip line in
  negb (is_group_header stripped)
  && negb (is_empty stripped)
  && negb (PyStr.startswith stripped "#")
  && negb (is_indented line)
  && negb (is_assignment stripped)
  && negb (PyStr.contains ":" stripped).

Definition first_char (s : string) : option ascii :=
  match s with
  | EmptyString => None
  | String c _ => Some c
  end.

Fixpoint last_char (s : string) : option ascii :=
  match s with
  | EmptyString => None
  | String c EmptyString => Some c
  | String _ s' => last_char s'
  end.

(** A command as the parser stores it: not empty, no white space at
    either end, and not a comment. *)
Definition well_formed_command (cmd : string) : Prop :=
  cmd <> ""
  /\ (forall c, first_char cmd = Some c -> PyStr.isspace c = false)
  /\ (forall c, last_char cmd = Some c -> PyStr.isspace c = false)
  /\ PyStr.startswith cmd "#" = false.

Definition commands_well_formed (ts : PyDict.t Target) : Prop :=
  forall name info cmd,
    In (name, info) (PyDict.items ts) -> In cmd (commands info) ->
    well_formed_command cmd.

(** A line that reaches the indentation case: not a group header, not
    blank, not a comment, and indented. *)
Definition command_line (line : string) : bool :=
  let stripped := PyStr.strip line in
  negb (is_group_header stripped)
  && negb (is_empty stripped)
  && negb (PyStr.startswith stripped "#")
  && is_indented line.

(** A line that reaches the variable assignment case. *)
Definition assignment_line (line : string) : bool :=
  let stripped := PyStr.strip line in
  negb (is_group_header stripped)
  && negb (is_empty stripped)
  && negb (PyStr.startswith stripped "#")
  && negb (is_indented line)
  && is_assignment stripped.

(** A line that reaches the target definition case. *)
Definition definition_line (line : string) : bool :=
  let stripped := PyStr.strip line in
  negb (is_group_header stripped)
  && negb (is_empty stripped)
  && negb (PyStr.startswith stripped "#")
  && negb (is_indented line)
  && negb (is_assignment stripped)
  && PyStr.contains ":" stripped.

(** The name a target definition line defines. *)
Definition defined_name (line : string) : string :=
  match PyStr.split_once ":" (PyStr.strip line) with
  | Some (part0, _) => PyStr.strip part0
  | None => ""
  end.

(** The dependency list a target definition line gives. *)
Definition defined_deps (line : string) : list string :=
  match PyStr.split_once ":" (PyStr.strip line) with
  | Some (_, part1) => PyStr.split_ws (PyStr.strip part1)
  | None => []
  end.

(** A line after which no target is open: a group header, a variable
    assignment, or the definition of a target with the empty name. *)
Definition closing_line (line : string) : bool :=
  is_group_header (PyStr.strip line)
  || assignment_line line
  || (definition_line line && is_empty (defined_name line)).

(** No character of [s] is white space. *)
Fixpoint no_space (s : string) : bool :=
  match s with
  | EmptyString => true
  | String c s' => negb (PyStr.isspace c) && no_space s'
  end.

(** Every character of [s] is white space. *)
Fixpoint all_space (s : string) : bool :=
  match s with
  | EmptyString => true
  | String c s' => PyStr.isspace c && all_space s'
  end.

(** The rows of the listing that belong to group [g], in table order. *)
Definition rows_of_group (self : BuildSystem) (g : string)
  : list (string * string) :=
  map (fun kv => (fst kv, doc (snd kv)))
      (filter (fun kv => String.eqb (group (snd kv)) g) (PyDict.items (targets self))).

(** A blank line or a comment line. *)
Definition skip_line (line : string) : bool :=
  let stripped := PyStr.strip line in
  negb (is_group_header stripped)
  && (is_empty stripped || PyStr.startswith stripped "#").

(** What the loop of [parse] keeps true of its state: an open target
    with a non-empty name is in the table, the remembered first target is
    the first key of the table, and no key occurs twice. *)
Definition state_ok (ps : ParserState) : Prop :=
  (forall t, current_target ps = Some t -> t <> "" ->
             PyDict.mem (targets (model ps)) t = true)
  /\ first_target (model ps) = hd_error (PyDict.keys (targets (model ps)))
  /\ NoDup (PyDict.keys (targets (model ps)))
  /\ NoDup (PyDict.keys (variables (model ps))).

(** No white space at either end. *)
Definition trimmed (s : string) : Prop :=
  (forall c, first_char s = Some c -> PyStr.isspace c = false)
  /\ (forall c, last_char s = Some c -> PyStr.isspace c = false).

(** The shape of the names [parse] stores: a target name is trimmed and
    free of [:], its dependencies are non-empty and free of white space;
    a variable name is trimmed and free of [=] and [:], its value is
    trimmed and free of [:]. *)
Definition names_ok (self : BuildSystem) : Prop :=
  (forall name info, In (name, info) (PyDict.items (targets self)) ->
     trimmed name /\ PyStr.contains ":" name = false
     /\ forall d, In d (deps info) -> d <> "" /\ no_space d = true)
  /\ (forall key val, In (key, val) (PyDict.items (variables self)) ->
        trimmed key /\ PyStr.contains "=" key = false
        /\ PyStr.contains ":" key = false
        /\ trimmed val /\ PyStr.contains ":" val = false).



(** The label a group header line sets. *)
Definition header_label (line : string) : string :=
  PyStr.strip (PyStr.drop 7 (PyStr.init (PyStr.strip line))).

(** The documentation string made of the pending comment texts. *)
Definition doc_of (pending : list string) : string :=
  match pending with
  | [] => ""
  | _ => PyStr.join " " pending
  end.

(** A line of a target body: a command, a blank line or a comment. *)
Definition body_line (line : string) : bool :=
  command_line line || skip_line line.

(** What each kind of error of a build of [t] says about the graph and
    about the world [st'] the build stopped in: the name reported for a
    cycle is below [t] and on a cycle; the name reported as having no
    rule is below [t], is not a target and is not a file; the command
    reported as failed is the expansion of a command of a target below
    [t].  No other exception is raised. *)
Definition raised_for {os : OS} (self : BuildSystem) (t : string)
           (e : Exception) (st' : State) : Prop :=
  match e with
  | CircularDependency x => reach self t x /\ on_cycle self x
  | NoRuleToMake x =>
      reach self t x /\ PyDict.mem (targets self) x = false
      /\ path_exists (world st') x = false
  | CommandFailed c =>
      exists u info cmd,
        reach self t u /\ PyDict.get (targets self) u = Some info
        /\ In cmd (commands info) /\ c = expand_vars self cmd
  | _ => False
  end.

(** A call that started in [st] and ended as [res] has only added to the
    trace, and if it added nothing it has left the state as it was. *)
Definition quiet_unless_traced {os : OS} (st : State) (res : outcome * State)
  : Prop :=
  exists new,
    trace (snd res) = (trace st ++ new)%list
    /\ (new = [] -> snd res = st).

(** The goals [run] takes from the command line: the arguments after the
    program name that do not start with [-]. *)
Definition goals_of (argv : list string) : list string :=
  filter (fun arg => negb (PyStr.startswith arg "-")) (tl argv).

(** [--list] or [-l] is among the arguments. *)
Definition wants_list (argv : list string) : bool :=
  existsb (String.eqb "--list") argv || existsb (String.eqb "-l") argv.

(** The number of rows held by a table of groups. *)
Definition row_count (grouped : PyDict.t (list (string * string))) : nat :=
  fold_right (fun kv n => List.length (snd kv) + n) 0 grouped.

(** [segs] and [last] are the pieces [text.split(tok)] cuts [text] into:
    joined by [tok] they give [text] back, and [tok] starts inside no
    piece, so the cuts are the occurrences of [tok] met from the left. *)
Definition cut_at (tok text : string) (segs : list string) (last : string)
  : Prop :=
  text = PyStr.join tok (segs ++ [last]) /\ split_by tok segs last = true.

(** Expansion in words: the variables are taken in table order; the step
    of [(k, v)] cuts the text at every [$k] and joins the pieces with
    [v], then cuts the result at every [${k}] and joins the pieces with
    [v]; what is left after the last variable is the output. *)
Inductive expansion : list (string * string) -> string -> string -> Prop :=
| expansion_done (text : string) : expansion [] text text
| expansion_step (k v : string) (rest : list (string * string))
    (text : string) (segs1 : list string) (last1 : string)
    (segs2 : list string) (last2 : string) (out : string) :
    cut_at (dollar k) text segs1 last1 ->
    cut_at (braced k) (PyStr.join v (segs1 ++ [last1])) segs2 last2 ->
    expansion rest (PyStr.join v (segs2 ++ [last2])) out ->
    expansion ((k, v) :: rest) text out.


(** The number of line ends in a text. *)
Fixpoint count_lf (s : string) : nat :=
  match s with
  | EmptyString => 0
  | String c s' => (if Ascii.eqb c (ascii_of_nat 10) then 1 else 0) + count_lf s'
  end.

(** What [print] writes for a sequence of calls: each text followed by a
    line end. *)
Fixpoint printed (calls : list string) : string :=
  match calls with
  | [] => EmptyString
  | text :: rest => text ++ LF ++ printed rest
  end.

(* ================================================================== *)
(** * Properties *)
(* ================================================================== *)

(** ** Sanity checks of the embedding on concrete inputs *)

Example replace_overlap : PyStr.replace "aaa" "aa" "b" = "ba".
Proof. reflexivity. Qed.

Example replace_empty_old : PyStr.replace "ab" "" "-" = "-a-b-".
Proof. reflexivity. Qed.

Example strip_ex : PyStr.strip (TAB ++ "  a b  " ++ LF) = "a b".
Proof. reflexivity. Qed.

Example split_ex : PyStr.split_ws "  a  bc d " = ["a"; "bc"; "d"].
Proof. reflexivity. Qed.

Example slice_ex : PyStr.strip (PyStr.drop 7 (PyStr.init "[Group: Build ]")) = "Build".
Proof. reflexivity. Qed.

Example parse_ex :
  parse new_BuildSystem
        (Some ["# Build the program" ++ LF;
               "[Group: Build]" ++ LF;
               "# Compile" ++ LF;
               "#   everything" ++ LF;
               "all: main.o  util.o" ++ LF;
               TAB ++ "$CC -o all main.o util.o" ++ LF;
               LF;
               "CC = gcc" ++ LF])
  = Ok (mkBuildSystem
          [("CC", "gcc")]
          [("all", mkTarget ["main.o"; "util.o"] ["$CC -o all main.o util.o"]
                            "Compile everything" "Build")]
          (Some "all")).
Proof. reflexivity. Qed.

Example parse_empty_name_ex :
  parse new_BuildSystem (Some [": x" ++ LF; TAB ++ "cmd" ++ LF])
  = Raise (OrphanCommand 2).
Proof. reflexivity. Qed.

Example run_ex :
  @run Demo.os ["makeover"]
       (Some ["OUT=prog" ++ LF; "prog: main.c" ++ LF; TAB ++ "touch ${OUT}" ++ LF])
       (@mkState Demo.os [("main.c", 4%Z)] [])
  = (Done, @mkState Demo.os [("main.c", 4%Z); ("prog", 5%Z)] [("touch prog", 0%Z)]).
Proof. reflexivity. Qed.

Example run_list_ex :
  @run Demo.os ["makeover"; "-l"]
       (Some ["prog: main.c" ++ LF; TAB ++ "touch prog" ++ LF])
       (@mkState Demo.os [("main.c", 4%Z)] [])
  = (Done, @mkState Demo.os [("main.c", 4%Z)] []).
Proof. reflexivity. Qed.

(** ** Strings *)

Section StringFacts.


Lemma str_app_assoc (a b c : string) : (a ++ b) ++ c = a ++ (b ++ c).
Proof. induction a; simpl; congruence. Qed.

Lemma str_length_app (a b : string) :
  String.length (a ++ b) = String.length a + String.length b.
Proof. induction a; simpl; congruence. Qed.

Lemma prefix_nil (s : string) : prefix "" s = true.
Proof. destruct s; reflexivity. Qed.

Lemma prefix_cons (a b : ascii) (t s : string) :
  prefix (String a t) (String b s) = (Ascii.eqb a b && prefix t s)%bool.
Proof.
  simpl. destruct (ascii_dec a b) as [->|n].
  - now rewrite Ascii.eqb_refl.
  - apply Ascii.eqb_neq in n. now rewrite n.
Qed.

Lemma prefix_app (t b : string) : prefix t (t ++ b) = true.
Proof.
  induction t as [|c t IH]; [apply prefix_nil|].
  change (String c t ++ b) with (String c (t ++ b)).
  now rewrite prefix_cons, Ascii.eqb_refl.
Qed.

Lemma prefix_spec (t s : string) :
  prefix t s = true <-> exists r, s = t ++ r.
Proof.
  split.
  - revert s. induction t as [|c t IH]; intros s H.
    + now exists s.
    + destruct s as [|d s]; [discriminate|].
      rewrite prefix_cons in H. apply andb_prop in H as [E H].
      apply Ascii.eqb_eq in E as ->.
      destruct (IH _ H) as [r ->]. now exists r.
  - intros [r ->]. apply prefix_app.
Qed.

(** Only the first [length t] characters matter. *)
Lemma prefix_long (t x y : string) :
  String.length t <= String.length x -> prefix t (x ++ y) = prefix t x.
Proof.
  revert x. induction t as [|c t IH]; intros x L.
  - now rewrite !prefix_nil.
  - destruct x as [|d x]; [simpl in L; lia|].
    change (String d x ++ y) with (String d (x ++ y)).
    rewrite !prefix_cons. f_equal. apply IH. simpl in L. lia.
Qed.

Lemma init_snoc (t : string) :
  t <> "" -> exists c, t = PyStr.init t ++ String c "".
Proof.
  induction t as [|c t IH]; [congruence|]. intros _.
  destruct t as [|d t].
  - now exists c.
  - destruct IH as [e E]; [discriminate|]. exists e.
    change (PyStr.init (String c (String d t)))
      with (String c (PyStr.init (String d t))).
    cbn [append]. f_equal. exact E.
Qed.

Lemma length_init (t : string) :
  String.length (PyStr.init t) = String.length t - 1.
Proof.
  induction t as [|c t IH]; [reflexivity|].
  destruct t as [|d t]; [reflexivity|].
  change (PyStr.init (String c (String d t)))
    with (String c (PyStr.init (String d t))).
  simpl String.length in *. lia.
Qed.

Lemma contains_nil (t : string) :
  PyStr.contains t "" = (prefix t "" || false)%bool.
Proof. reflexivity. Qed.

Lemma contains_step (t : string) (c : ascii) (s : string) :
  PyStr.contains t (String c s)
  = (prefix t (String c s) || PyStr.contains t s)%bool.
Proof. reflexivity. Qed.

Lemma contains_spec (t s : string) :
  PyStr.contains t s = true <-> exists a b, s = a ++ t ++ b.
Proof.
  split.
  - induction s as [|c s IH]; intros H.
    + rewrite contains_nil, orb_false_r in H.
      apply prefix_spec in H as [r E]. now exists "", r.
    + rewrite contains_step in H. apply orb_prop in H as [H|H].
      * apply prefix_spec in H as [r E]. now exists "", r.
      * destruct (IH H) as (a & b & ->). now exists (String c a), b.
  - intros (a & b & ->). induction a as [|c a IH].
    + cbn [append]. destruct (t ++ b) eqn:E.
      * rewrite contains_nil, <- E, prefix_app. reflexivity.
      * rewrite contains_step, <- E, prefix_app. reflexivity.
    + change (String c a ++ t ++ b) with (String c (a ++ t ++ b)).
      rewrite contains_step, IH. apply orb_true_r.
Qed.

Lemma contains_cons (t : string) (c : ascii) (s : string) :
  PyStr.contains t (String c s) = false ->
  prefix t (String c s) = false /\ PyStr.contains t s = false.
Proof. rewrite contains_step. intros H. now apply orb_false_elim in H. Qed.

End StringFacts.

(** ** [str.replace] *)

Section ReplaceFacts.

Variables old new : string.

Lemma replace_from_here (c : ascii) (s : string) :
  PyStr.replace_from old new 0 (String c s)
  = if prefix old (String c s)
    then new ++ PyStr.replace_from old new (String.length old - 1) s
    else String c (PyStr.replace_from old new 0 s).
Proof. reflexivity. Qed.

(** The characters of a match are passed over. *)
Lemma replace_from_skip (x b : string) :
  PyStr.replace_from old new (String.length x) (x ++ b)
  = PyStr.replace_from old new 0 b.
Proof.
  induction x as [|c x IH]; [reflexivity|]. exact IH.
Qed.

Lemma replace_from_absent (s : string) :
  PyStr.contains old s = false -> PyStr.replace_from old new 0 s = s.
Proof.
  induction s as [|c s IH]; [reflexivity|]. intros H.
  apply contains_cons in H as [P C].
  rewrite replace_from_here, P, IH; auto.
Qed.

Lemma contains_length (s : string) :
  PyStr.contains old s = true -> String.length old <= String.length s.
Proof.
  intros H. apply contains_spec in H as (a & b & ->).
  rewrite !str_length_app. lia.
Qed.

Lemma contains_short (s : string) :
  String.length s < String.length old -> PyStr.contains old s = false.
Proof.
  intros L. destruct (PyStr.contains old s) eqn:E; [|reflexivity].
  apply contains_length in E. lia.
Qed.

Hypothesis old_nonempty : old <> "".

Lemma replace_nonempty (s : string) :
  PyStr.replace s old new = PyStr.replace_from old new 0 s.
Proof. unfold PyStr.replace. destruct old; [congruence|reflexivity]. Qed.

(** The leftmost occurrence is replaced, and the scan resumes after it:
    the inserted text is not looked at again by this call. *)
Lemma replace_from_first (a b : string) :
  PyStr.contains old (a ++ PyStr.init old) = false ->
  PyStr.replace_from old new 0 (a ++ old ++ b)
  = a ++ new ++ PyStr.replace_from old new 0 b.
Proof.
  induction a as [|c a IH]; intros H.
  - cbn [append].
    assert (exists o old', old = String o old') as (o & old' & E)
      by (destruct old; [congruence|eauto]).
    replace (old ++ b) with (String o (old' ++ b)) by (now rewrite E).
    rewrite replace_from_here.
    replace (String o (old' ++ b)) with (old ++ b) by (now rewrite E).
    rewrite prefix_app. f_equal.
    replace (String.length old - 1) with (String.length old')
      by (rewrite E; simpl; lia).
    apply replace_from_skip.
  - change (String c a ++ PyStr.init old) with (String c (a ++ PyStr.init old)) in H.
    apply contains_cons in H as [P C].
    change (String c a ++ old ++ b) with (String c (a ++ old ++ b)).
    rewrite replace_from_here.
    destruct (init_snoc old old_nonempty) as [e E].
    assert (Q : prefix old (String c (a ++ old ++ b)) = false).
    { rewrite E at 2. rewrite str_app_assoc, <- str_app_assoc.
      change (String c ((a ++ PyStr.init old) ++ String e "" ++ b))
        with (String c (a ++ PyStr.init old) ++ (String e "" ++ b)).
      rewrite prefix_long; [exact P|].
      simpl String.length. rewrite str_length_app, length_init. lia. }
    rewrite Q, (IH C). reflexivity.
Qed.

Lemma replace_absent (s : string) :
  PyStr.contains old s = false -> PyStr.replace s old new = s.
Proof. rewrite replace_nonempty. apply replace_from_absent. Qed.

Lemma replace_first (a b : string) :
  PyStr.contains old (a ++ PyStr.init old) = false ->
  PyStr.replace (a ++ old ++ b) old new = a ++ new ++ PyStr.replace b old new.
Proof. rewrite !replace_nonempty. apply replace_from_first. Qed.


(** [s.replace(old, new) == new.join(s.split(old))]: every occurrence
    is replaced, not only the first. *)
Lemma replace_join (segs : list string) (last : string) :
  Forall (fun seg => PyStr.contains old (seg ++ PyStr.init old) = false) segs ->
  PyStr.contains old last = false ->
  PyStr.replace (PyStr.join old (segs ++ [last])) old new
  = PyStr.join new (segs ++ [last]).
Proof.
  intros F L. induction F as [|seg segs H F IH].
  - simpl. now apply replace_absent.
  - assert (J : forall sep, PyStr.join sep ((seg :: segs) ++ [last])
                          = seg ++ sep ++ PyStr.join sep (segs ++ [last])).
    { intros sep. unfold PyStr.join. simpl.
      destruct (segs ++ [last])%list eqn:E; [|reflexivity].
      now destruct segs. }
    rewrite !J, replace_first, IH; auto.
Qed.

End ReplaceFacts.

(** ** [expand_vars] *)

Section ExpandFacts.

Lemma dollar_nonempty (k : string) : dollar k <> "".
Proof. discriminate. Qed.

Lemma braced_nonempty (k : string) : braced k <> "".
Proof. discriminate. Qed.

Lemma expand_one_eq (text k v : string) :
  expand_one text (k, v)
  = PyStr.replace (PyStr.replace text (dollar k) v) (braced k) v.
Proof. reflexivity. Qed.

Lemma expand_untouched (kvs : list (string * string)) (text : string) :
  untouched_by kvs text = true -> fold_left expand_one kvs text = text.
Proof.
  induction kvs as [|[k v] kvs IH]; [reflexivity|].
  intros H. simpl in H.
  apply andb_prop in H as [H T]. apply andb_prop in H as [D B].
  apply negb_true_iff in D, B. cbn [fold_left].
  rewrite expand_one_eq, (replace_absent _ _ (dollar_nonempty k)) by exact D.
  rewrite (replace_absent _ _ (braced_nonempty k)) by exact B.
  now apply IH.
Qed.


Lemma split_by_replace (tok new : string) segs last :
  tok <> "" -> split_by tok segs last = true ->
  PyStr.replace (PyStr.join tok (segs ++ [last])) tok new
  = PyStr.join new (segs ++ [last]).
Proof.
  intros N H. apply andb_prop in H as [F L].
  apply replace_join; auto.
  - rewrite forallb_forall in F. apply Forall_forall.
    intros seg I. specialize (F seg I). now apply negb_true_iff in F.
  - now apply negb_true_iff in L.
Qed.

End ExpandFacts.

(** ** Cutting a text at the occurrences of a reference *)

Section CutFacts.

Lemma join_cons (sep seg : string) (segs : list string) (last : string) :
  PyStr.join sep ((seg :: segs) ++ [last])
  = seg ++ sep ++ PyStr.join sep (segs ++ [last]).
Proof.
  unfold PyStr.join. simpl.
  destruct (segs ++ [last])%list eqn:E; [|reflexivity]. now destruct segs.
Qed.

(** The leftmost occurrence. *)
Lemma first_occurrence (tok s : string) :
  tok <> "" -> PyStr.contains tok s = true ->
  exists a b, s = a ++ tok ++ b
              /\ PyStr.contains tok (a ++ PyStr.init tok) = false.
Proof.
  intros N. induction s as [|c s IH]; intros H.
  - rewrite contains_nil, orb_false_r in H. apply prefix_spec in H as [r E].
    destruct tok; [congruence|discriminate].
  - rewrite contains_step in H.
    destruct (prefix tok (String c s)) eqn:P.
    + apply prefix_spec in P as [r E]. exists "", r. split; [exact E|].
      cbn [append]. apply contains_short. rewrite length_init.
      destruct tok; [congruence|simpl; lia].
    + cbn [orb] in H. destruct (IH H) as (a & b & -> & F).
      exists (String c a), b. split; [reflexivity|].
      change (String c a ++ PyStr.init tok) with (String c (a ++ PyStr.init tok)).
      rewrite contains_step, F, orb_false_r.
      destruct (init_snoc tok N) as [e E].
      rewrite <- P.
      transitivity (prefix tok (String c (a ++ PyStr.init tok) ++ (String e "" ++ b))).
      * symmetry. apply prefix_long.
        simpl String.length. rewrite str_length_app, length_init.
        destruct tok; [congruence|simpl; lia].
      * f_equal. cbn [append]. f_equal. rewrite str_app_assoc. f_equal.
        change (String e b) with (String e "" ++ b).
        rewrite <- str_app_assoc. now rewrite <- E.
Qed.

(** Every text can be cut. *)
Lemma cut_exists (tok : string) :
  tok <> "" -> forall s, exists segs last, cut_at tok s segs last.
Proof.
  intros N s. remember (String.length s) as n eqn:L.
  revert s L. induction n as [n IH] using (well_founded_induction lt_wf).
  intros s L. destruct (PyStr.contains tok s) eqn:C.
  - destruct (first_occurrence tok s N C) as (a & b & -> & F).
    destruct (IH (String.length b)) with (s := b) as (segs & last & E & S);
      [|reflexivity|].
    { subst n. rewrite !str_length_app.
      destruct tok; [congruence|simpl; lia]. }
    exists (a :: segs), last. split.
    + rewrite join_cons, <- E. reflexivity.
    + unfold split_by in *. cbn [forallb]. rewrite F. exact S.
  - exists [], s. split; [reflexivity|]. unfold split_by. cbn [forallb].
    now rewrite C.
Qed.

Lemma cut_replace (tok new text : string) segs last :
  tok <> "" -> cut_at tok text segs last ->
  PyStr.replace text tok new = PyStr.join new (segs ++ [last]).
Proof. intros N [-> S]. now apply split_by_replace. Qed.

(** One iteration of the loop, in terms of cuts. *)
Lemma expand_one_cut (text k v : string) segs1 last1 segs2 last2 :
  cut_at (dollar k) text segs1 last1 ->
  cut_at (braced k) (PyStr.join v (segs1 ++ [last1])) segs2 last2 ->
  expand_one text (k, v) = PyStr.join v (segs2 ++ [last2]).
Proof.
  intros C1 C2. rewrite expand_one_eq.
  rewrite (cut_replace _ v _ _ _ (dollar_nonempty k) C1).
  exact (cut_replace _ v _ _ _ (braced_nonempty k) C2).
Qed.

Lemma expand_one_cuts_exist (text k v : string) :
  exists segs1 last1 segs2 last2,
    cut_at (dollar k) text segs1 last1
    /\ cut_at (braced k) (PyStr.join v (segs1 ++ [last1])) segs2 last2.
Proof.
  destruct (cut_exists _ (dollar_nonempty k) text) as (s1 & l1 & C1).
  destruct (cut_exists _ (braced_nonempty k) (PyStr.join v (s1 ++ [l1])))
    as (s2 & l2 & C2).
  now exists s1, l1, s2, l2.
Qed.

Lemma expansion_sound kvs (text out : string) :
  expansion kvs text out -> fold_left expand_one kvs text = out.
Proof.
  intros E. induction E as [text|k v rest text s1 l1 s2 l2 out C1 C2 E IH];
    [reflexivity|].
  cbn [fold_left]. now rewrite (expand_one_cut _ _ _ _ _ _ _ C1 C2).
Qed.

Lemma expansion_complete kvs :
  forall text, expansion kvs text (fold_left expand_one kvs text).
Proof.
  induction kvs as [|[k v] rest IH]; intros text; [constructor|].
  destruct (expand_one_cuts_exist text k v) as (s1 & l1 & s2 & l2 & C1 & C2).
  cbn [fold_left]. rewrite (expand_one_cut _ _ _ _ _ _ _ C1 C2).
  now apply (expansion_step k v rest text s1 l1 s2 l2).
Qed.

End CutFacts.




(** C8 (as amended).  (1) The two examples of the specification.  (2) A
    text that refers to no defined variable is returned as it is.  (3)
    For every table and every text, the output is the one [expansion]
    describes and no other: the variables are taken in table order, and
    the step of each cuts the text it receives at every occurrence of
    [$name], left to right and without overlap, joins the pieces with the
    value, and then does the same with [${name}] on the result.  No case
    raises: [expand_vars] is a total function. *)
Theorem expand_vars_replaces_every_occurrence :
  (expand_vars (mkBuildSystem [("CC", "gcc")] [] None) "$CC -o out in.c"
   = "gcc -o out in.c"
   /\ expand_vars (mkBuildSystem [("CC", "gcc")] [] None) "${CC}x" = "gccx")
  /\ (forall self text,
        untouched_by (PyDict.items (variables self)) text = true ->
        expand_vars self text = text)
  /\ (forall self text out,
        expansion (PyDict.items (variables self)) text out
        <-> expand_vars self text = out).
Proof.
  split; [split; reflexivity|]. split.
  - intros self text U. now apply expand_untouched.
  - intros self text out. split.
    + apply expansion_sound.
    + intros <-. apply expansion_complete.
Qed.

(** Both spellings in one text, several occurrences, other variables
    around. *)
Lemma expand_vars_replaces_every_occurrence_witness :
  let self := mkBuildSystem [("A", "1"); ("CC", "gcc")] [] None in
  expand_vars self "$X or $Y" = "$X or $Y"
  /\ expand_vars self "$CC ${CC}; $CC" = "gcc gcc; gcc"
  /\ expansion [("A", "1"); ("CC", "gcc")] "${CC}x$A" "gccx1".
Proof.
  cbv zeta.
  destruct expand_vars_replaces_every_occurrence as (_ & none & exactly).
  split; [|split].
  - apply none. reflexivity.
  - apply (proj1 (exactly (mkBuildSystem [("A", "1"); ("CC", "gcc")] [] None)
                          "$CC ${CC}; $CC" "gcc gcc; gcc")).
    apply (expansion_step "A" "1" _ _ [] "$CC ${CC}; $CC" [] "$CC ${CC}; $CC");
      [split; reflexivity..|].
    apply (expansion_step "CC" "gcc" _ _ [""; " ${CC}; "] "" ["gcc "] "; gcc");
      [split; reflexivity..|].
    apply expansion_done.
  - apply (proj2 (exactly (mkBuildSystem [("A", "1"); ("CC", "gcc")] [] None)
                          "${CC}x$A" "gccx1")).
    reflexivity.
Defined.

(** C8 fails as stated: with [CC] defined before [CCFLAGS], the
    occurrence of [$CCFLAGS] in the text is not replaced by the value of
    [CCFLAGS]; the step of [CC] has already rewritten its first three
    characters. *)
Lemma expand_vars_misses_longer_name :
  let self := mkBuildSystem [("CC", "gcc"); ("CCFLAGS", "-O2")] [] None in
  parse new_BuildSystem (Some ["CC=gcc" ++ LF; "CCFLAGS=-O2" ++ LF]) = Ok self
  /\ PyDict.get (variables self) "CCFLAGS" = Some "-O2"
  /\ expand_vars self "$CCFLAGS" = "gccFLAGS"
  /\ PyStr.contains "-O2" (expand_vars self "$CCFLAGS") = false.
Proof. cbv zeta. repeat split; reflexivity. Qed.

(** ** [needs_rebuild] *)

Section NeedsRebuildFacts.

Context {os : OS}.
Variables (self : BuildSystem) (w : World).

Lemma needs_rebuild_loop_cons (tm : Z) (dep : string) (rest : list string) :
  needs_rebuild_loop self w tm (dep :: rest) = true
  <-> triggers self w tm dep \/ needs_rebuild_loop self w tm rest = true.
Proof.
  unfold triggers. cbn [needs_rebuild_loop].
  destruct (path_exists w dep) eqn:E; cbn [negb]; cbv iota.
  - destruct (Z.gtb_spec (getmtime w dep) tm) as [G|G].
    + split; auto. intros _. left. left. split; [reflexivity|lia].
    + split; auto. intros [[[_ G']|[D _]]|R]; [lia|discriminate|exact R].
  - destruct (PyDict.mem (targets self) dep) eqn:M.
    + split; auto. intros [[[D _]|[_ D]]|R]; [discriminate..|exact R].
    + split; auto.
Qed.

Lemma needs_rebuild_loop_true (tm : Z) (deps : list string) :
  needs_rebuild_loop self w tm deps = true
  <-> exists dep, In dep deps /\ triggers self w tm dep.
Proof.
  induction deps as [|dep rest IH].
  - split; [discriminate|]. now intros (dep & [] & _).
  - rewrite needs_rebuild_loop_cons, IH. split.
    + intros [T|(d & I & T)]; [exists dep|exists d]; split; auto;
        [now left|now right].
    + intros (d & [->|I] & T); [now left|]. right. now exists d.
Qed.

End NeedsRebuildFacts.

(** C2.  [needs_rebuild] answers true exactly when the target's file is
    absent, or some dependency is an existing file strictly newer than
    the target's file, or some dependency is neither an existing file nor
    a known target.  So a dependency that is a known target without a
    file does not trigger by itself, and equal time stamps do not
    trigger. *)
Theorem needs_rebuild_exactly {os : OS} (self : BuildSystem) (w : World)
        (target : string) (deps : list string) :
  (needs_rebuild self w target deps = true
   <-> path_exists w target = false
       \/ (exists dep, In dep deps /\ path_exists w dep = true
                       /\ (getmtime w dep > getmtime w target)%Z)
       \/ (exists dep, In dep deps /\ path_exists w dep = false
                       /\ PyDict.mem (targets self) dep = false))
  /\ (forall dep,
        path_exists w target = true -> path_exists w dep = false ->
        PyDict.mem (targets self) dep = true ->
        needs_rebuild self w target [dep] = false)
  /\ (forall dep,
        path_exists w target = true -> path_exists w dep = true ->
        getmtime w dep = getmtime w target ->
        needs_rebuild self w target [dep] = false).
Proof.
  assert (main : forall ds,
    needs_rebuild self w target ds = true
    <-> path_exists w target = false
        \/ (exists dep, In dep ds /\ path_exists w dep = true
                        /\ (getmtime w dep > getmtime w target)%Z)
        \/ (exists dep, In dep ds /\ path_exists w dep = false
                        /\ PyDict.mem (targets self) dep = false)).
  { intros ds. unfold needs_rebuild.
    destruct (path_exists w target) eqn:E; cbn [negb]; cbv iota.
    - rewrite needs_rebuild_loop_true. unfold triggers. split.
      + intros (d & I & [[X G]|[X M]]); right; [left|right]; exists d; auto.
      + intros [D|[(d & I & X & G)|(d & I & X & M)]]; [discriminate| |];
          exists d; split; auto.
    - split; auto. }
  split; [apply main|]. split; intros dep T D X.
  - destruct (needs_rebuild self w target [dep]) eqn:N; [|reflexivity].
    apply main in N as [N|[(d & [<-|[]] & P & _)|(d & [<-|[]] & _ & M)]];
      congruence.
  - destruct (needs_rebuild self w target [dep]) eqn:N; [|reflexivity].
    apply main in N as [N|[(d & [<-|[]] & _ & G)|(d & [<-|[]] & P & _)]];
      [congruence|lia|congruence].
Qed.

(** In the demo world [out] and [in] have the same time stamp and [gen]
    is a target without a file: neither dependency triggers. *)
Lemma needs_rebuild_exactly_witness :
  let self := mkBuildSystem [] [("gen", mkTarget [] [] "" "General")] None in
  let w : @World Demo.os := [("out", 5%Z); ("in", 5%Z); ("new", 6%Z)] in
  @needs_rebuild Demo.os self w "out" ["gen"] = false
  /\ @needs_rebuild Demo.os self w "out" ["in"] = false
  /\ @needs_rebuild Demo.os self w "out" ["in"; "new"] = true
  /\ @needs_rebuild Demo.os self w "out" ["in"; "lost"] = true.
Proof.
  cbv zeta.
  destruct (@needs_rebuild_exactly Demo.os
              (mkBuildSystem [] [("gen", mkTarget [] [] "" "General")] None)
              [("out", 5%Z); ("in", 5%Z); ("new", 6%Z)] "out" ["in"; "new"])
    as (newer & absent_target & same_stamp).
  destruct (@needs_rebuild_exactly Demo.os
              (mkBuildSystem [] [("gen", mkTarget [] [] "" "General")] None)
              [("out", 5%Z); ("in", 5%Z); ("new", 6%Z)] "out" ["in"; "lost"])
    as (lost & _ & _).
  split; [|split; [|split]].
  - apply absent_target; reflexivity.
  - apply same_stamp; reflexivity.
  - apply newer. right. left. exists "new".
    split; [right; now left|]. split; reflexivity.
  - apply lost. right. right. exists "lost".
    split; [right; now left|]. split; reflexivity.
Defined.

(** ** Loops and the recursion budget of [build] *)

Section LoopFacts.

Context {os : OS}.

Lemma for_each_ext {A} (f g : A -> State -> outcome * State) (l : list A) :
  (forall x st, In x l -> f x st = g x st) ->
  forall st, for_each f l st = for_each g l st.
Proof.
  induction l as [|x l IH]; intros E st; [reflexivity|].
  cbn [for_each]. rewrite (E x st) by now left.
  destruct (g x st) as [[| |] st']; auto.
  apply IH. intros y st'' I. apply E. now right.
Qed.

(** A property of outcomes that holds for [Done] and for every run of
    the body holds for the loop. *)
Lemma for_each_outcome {A} (R : outcome -> Prop)
      (body : A -> State -> outcome * State) (l : list A) :
  R Done ->
  (forall x st, In x l -> R (fst (body x st))) ->
  forall st, R (fst (for_each body l st)).
Proof.
  intros D. induction l as [|x l IH]; intros B st; [exact D|].
  cbn [for_each]. pose proof (B x st (or_introl eq_refl)) as Bx.
  destruct (body x st) as [[| |] st']; auto.
  apply IH. intros y st'' I. apply B. now right.
Qed.


(** A body that leaves the state alone and ends in [Done] or in an
    outcome of [R] makes a loop of the same kind. *)
Lemma for_each_same_state {A} (R : outcome -> Prop)
      (body : A -> State -> outcome * State) (l : list A) (st : State) :
  (forall x, In x l -> exists r, body x st = (r, st) /\ (r = Done \/ R r)) ->
  exists r, for_each body l st = (r, st) /\ (r = Done \/ R r).
Proof.
  induction l as [|x l IH]; intros B.
  - exists Done. now split; [|left].
  - cbn [for_each]. destruct (B x (or_introl eq_refl)) as (r & -> & H).
    destruct r as [|e|].
    + apply IH. intros y I. apply B. now right.
    + now exists (Raised e).
    + now exists Exhausted.
Qed.

Lemma in_set_true (visited : list string) (x : string) :
  in_set visited x = true <-> In x visited.
Proof.
  unfold in_set. rewrite existsb_exists. split.
  - intros (y & I & E). apply String.eqb_eq in E. now subst.
  - intros I. exists x. split; [exact I|apply String.eqb_refl].
Qed.

Lemma in_set_false (visited : list string) (x : string) :
  in_set visited x = false <-> ~ In x visited.
Proof.
  rewrite <- in_set_true. destruct (in_set visited x); split; congruence.
Qed.

Lemma get_In {V} (d : PyDict.t V) (k : string) (v : V) :
  PyDict.get d k = Some v -> In (k, v) d.
Proof.
  induction d as [|[k' v'] d IH]; [discriminate|]. cbn [PyDict.get].
  destruct (String.eqb_spec k' k) as [->|N].
  - intros [= ->]. now left.
  - intros G. right. auto.
Qed.

Lemma filter_length_mono {A} (f g : A -> bool) (l : list A) :
  (forall x, f x = true -> g x = true) ->
  List.length (filter f l) <= List.length (filter g l).
Proof.
  intros M. induction l as [|x l IH]; [reflexivity|]. simpl.
  destruct (f x) eqn:Fx; [rewrite (M x Fx); simpl; lia|].
  destruct (g x); simpl; lia.
Qed.

Lemma filter_length_lt {A} (f g : A -> bool) (l : list A) (a : A) :
  In a l ->
  (forall x, f x = true -> g x = true) ->
  f a = false -> g a = true ->
  List.length (filter f l) < List.length (filter g l).
Proof.
  intros I M Fa Ga. induction l as [|x l IH]; [destruct I|]. simpl.
  destruct I as [->|I].
  - rewrite Fa, Ga. simpl. apply Nat.lt_succ_r. now apply filter_length_mono.
  - specialize (IH I). destruct (f x) eqn:Fx; [rewrite (M x Fx); simpl; lia|].
    destruct (g x); simpl; lia.
Qed.

Variable self : BuildSystem.

Lemma unvisited_le (visited : list string) :
  unvisited self visited <= List.length (targets self).
Proof. apply filter_length_le. Qed.

(** Entering a target that was not visited uses up one entry. *)
Lemma unvisited_enter (visited : list string) (t : string) (info : Target) :
  PyDict.get (targets self) t = Some info ->
  in_set visited t = false ->
  unvisited self (t :: visited) < unvisited self visited.
Proof.
  intros G F. apply get_In in G. unfold unvisited.
  apply (filter_length_lt _ _ _ (t, info) G).
  - intros [k v] H. cbn [fst existsb] in *.
    rewrite negb_orb in H. now apply andb_prop in H.
  - cbn [fst existsb]. now rewrite String.eqb_refl.
  - cbn [fst]. change (negb (in_set visited t) = true). now rewrite F.
Qed.

End LoopFacts.

(** ** [build]: the budget is enough *)

Section BudgetFacts.

Context {os : OS}.
Variable self : BuildSystem.

Lemma build_fuel_S (n : nat) (t : string) (visited : list string) (st : State) :
  build_fuel (S n) self t visited st
  = if in_set visited t then (Raised (CircularDependency t), st)
    else match PyDict.get (targets self) t with
         | None =>
             if negb (path_exists (world st) t)
             then (Raised (NoRuleToMake t), st)
             else (Done, st)
         | Some info =>
             match for_each (fun dep => build_fuel n self dep (t :: visited))
                            (deps info) st with
             | (Done, st1) =>
                 if needs_rebuild self (world st1) t (deps info)
                 then run_commands self (commands info) st1
                 else (Done, st1)
             | r => r
             end
         end.
Proof. reflexivity. Qed.

Lemma run_commands_outcome (cmds : list string) (st : State) :
  fst (run_commands self cmds st) = Done
  \/ exists c, fst (run_commands self cmds st) = Raised (CommandFailed c).
Proof.
  revert st. induction cmds as [|c cmds IH]; intros st; [now left|].
  cbn [run_commands].
  destruct (subprocess_run (expand_vars self c) (world st)) as [w' rc].
  destruct (rc =? 0)%Z; [apply IH|]. right. now eexists.
Qed.

(** Two budgets above the number of unvisited targets give the same
    result. *)
Lemma build_fuel_stable (n : nat) :
  forall m t visited st,
    unvisited self visited < n -> unvisited self visited < m ->
    build_fuel n self t visited st = build_fuel m self t visited st.
Proof.
  induction n as [|n IH]; intros m t visited st Ln Lm; [lia|].
  destruct m as [|m]; [lia|]. rewrite !build_fuel_S.
  destruct (in_set visited t) eqn:V; [reflexivity|].
  destruct (PyDict.get (targets self) t) as [info|] eqn:G; [|reflexivity].
  pose proof (unvisited_enter self visited t info G V) as U.
  rewrite (for_each_ext _ (fun dep => build_fuel m self dep (t :: visited)));
    [reflexivity|].
  intros dep st' _. apply IH; lia.
Qed.

Lemma build_fuel_not_exhausted (n : nat) :
  forall t visited st,
    unvisited self visited < n ->
    fst (build_fuel n self t visited st) <> Exhausted.
Proof.
  induction n as [|n IH]; intros t visited st L; [lia|].
  rewrite build_fuel_S.
  destruct (in_set visited t) eqn:V; [discriminate|].
  destruct (PyDict.get (targets self) t) as [info|] eqn:G.
  - pose proof (unvisited_enter self visited t info G V) as U.
    pose proof (for_each_outcome (fun o => o <> Exhausted)
                  (fun dep => build_fuel n self dep (t :: visited)) (deps info))
      as F.
    specialize (F ltac:(discriminate)
                  ltac:(intros dep st' _; apply IH; lia) st).
    destruct (for_each _ (deps info) st) as [[|e|] st1];
      [|discriminate|now cbn in F].
    destruct (needs_rebuild self (world st1) t (deps info)); [|discriminate].
    destruct (run_commands_outcome (commands info) st1) as [->|[c ->]];
      discriminate.
  - destruct (negb (path_exists (world st) t)); discriminate.
Qed.

Lemma build_from_not_exhausted (t : string) (visited : list string) (st : State) :
  fst (build_from self t visited st) <> Exhausted.
Proof.
  apply build_fuel_not_exhausted. pose proof (unvisited_le self visited). lia.
Qed.

(** [build_from] satisfies the recursive equation of the source. *)
Lemma build_from_unfold (t : string) (visited : list string) (st : State) :
  build_from self t visited st
  = if in_set visited t then (Raised (CircularDependency t), st)
    else match PyDict.get (targets self) t with
         | None =>
             if negb (path_exists (world st) t)
             then (Raised (NoRuleToMake t), st)
             else (Done, st)
         | Some info =>
             match for_each (fun dep => build_from self dep (t :: visited))
                            (deps info) st with
             | (Done, st1) =>
                 if needs_rebuild self (world st1) t (deps info)
                 then run_commands self (commands info) st1
                 else (Done, st1)
             | r => r
             end
         end.
Proof.
  unfold build_from at 1. rewrite build_fuel_S.
  destruct (in_set visited t) eqn:V; [reflexivity|].
  destruct (PyDict.get (targets self) t) as [info|] eqn:G; [|reflexivity].
  pose proof (unvisited_enter self visited t info G V) as U.
  pose proof (unvisited_le self visited) as L.
  rewrite (for_each_ext _ (fun dep => build_from self dep (t :: visited)));
    [reflexivity|].
  intros dep st' _. apply build_fuel_stable; lia.
Qed.

End BudgetFacts.

(** ** [build]: names that are not targets *)

(** C7.  A requested name that is not a known target is a plain file
    reference: [build] returns without running a command when the file
    exists, and raises "No rule to make target" naming it otherwise. *)
Theorem build_plain_file {os : OS} (self : BuildSystem) (name : string)
        (st : State) :
  PyDict.mem (targets self) name = false ->
  (path_exists (world st) name = true -> build self name st = (Done, st))
  /\ (path_exists (world st) name = false ->
      build self name st = (Raised (NoRuleToMake name), st)).
Proof.
  intros M. unfold PyDict.mem in M.
  unfold build. rewrite build_from_unfold. cbn [in_set existsb].
  destruct (PyDict.get (targets self) name); [discriminate|].
  split; intros ->; reflexivity.
Qed.

Lemma build_plain_file_witness :
  let self := mkBuildSystem [] [("all", mkTarget ["main.c"] [] "" "General")] None in
  let st := @mkState Demo.os [("main.c", 3%Z)] [] in
  @build Demo.os self "main.c" st = (Done, st)
  /\ @build Demo.os self "util.c" st = (Raised (NoRuleToMake "util.c"), st).
Proof.
  cbv zeta. split.
  - apply (@build_plain_file Demo.os); reflexivity.
  - apply (@build_plain_file Demo.os); reflexivity.
Defined.

(** ** [build]: cycles *)

Section CycleFacts.

Context {os : OS}.
Variable self : BuildSystem.

Lemma trans_then_edge (a b c : string) :
  clos_trans_1n string (dep_edge self) a b -> dep_edge self b c ->
  clos_trans_1n string (dep_edge self) a c.
Proof.
  intros T E. induction T as [a b H|a b b' H T IH].
  - eapply Relation_Operators.t1n_trans; [exact H|]. now apply Relation_Operators.t1n_step.
  - eapply Relation_Operators.t1n_trans; [exact H|]. now apply IH.
Qed.

Lemma edge_of_dep (t : string) (info : Target) (d : string) :
  PyDict.get (targets self) t = Some info -> In d (deps info) ->
  dep_edge self t d.
Proof. intros G I. now exists info. Qed.

(** The visited set holds ancestors only, so in an acyclic graph the
    cycle check never fires. *)
Lemma build_fuel_no_circular (n : nat) :
  acyclic self ->
  forall t visited st,
    (forall v, In v visited -> clos_trans_1n string (dep_edge self) v t) ->
    forall x, fst (build_fuel n self t visited st)
              <> Raised (CircularDependency x).
Proof.
  intros A. induction n as [|n IH]; intros t visited st Anc x; [discriminate|].
  rewrite build_fuel_S.
  destruct (in_set visited t) eqn:V.
  { apply in_set_true in V. destruct (A t). now apply Anc. }
  destruct (PyDict.get (targets self) t) as [info|] eqn:G.
  - pose proof (for_each_outcome
                  (fun o => forall x, o <> Raised (CircularDependency x))
                  (fun dep => build_fuel n self dep (t :: visited)) (deps info))
      as F.
    assert (B : forall dep st', In dep (deps info) ->
              forall y, fst (build_fuel n self dep (t :: visited) st')
                        <> Raised (CircularDependency y)).
    { intros dep st' I. apply IH. intros v [<-|Iv].
      - apply Relation_Operators.t1n_step. now apply (edge_of_dep _ info).
      - eapply trans_then_edge; [now apply Anc|now apply (edge_of_dep _ info)]. }
    specialize (F ltac:(discriminate) B st).
    destruct (for_each _ (deps info) st) as [[|e|] st1];
      [|apply F|discriminate].
    destruct (needs_rebuild self (world st1) t (deps info)); [|discriminate].
    destruct (run_commands_outcome self (commands info) st1) as [->|[c ->]];
      discriminate.
  - destruct (negb (path_exists (world st) t)); discriminate.
Qed.

Lemma rank_along_path (rank : string -> nat) (a b : string) :
  ranks_decrease self rank = true ->
  clos_trans_1n string (dep_edge self) a b -> rank b < rank a.
Proof.
  intros R T. unfold ranks_decrease in R. rewrite forallb_forall in R.
  assert (E : forall u v, dep_edge self u v -> rank v < rank u).
  { intros u v (info & G & I). apply get_In in G. specialize (R _ G).
    cbn [fst snd] in R. rewrite forallb_forall in R.
    now apply Nat.ltb_lt, R. }
  induction T as [a b H|a b c H T IH].
  - now apply E.
  - apply E in H. lia.
Qed.

Lemma ranked_acyclic (rank : string -> nat) :
  ranks_decrease self rank = true -> acyclic self.
Proof.
  intros R d C. pose proof (rank_along_path rank d d R C). lia.
Qed.

End CycleFacts.

(** C4.  When the dependency relation is acyclic, a top-level [build]
    never raises "Circular dependency": every dependency receives its own
    copy of the visited set, which therefore holds only the ancestors of
    the current call. *)
Theorem build_acyclic_never_circular {os : OS} (self : BuildSystem)
        (goal : string) (st : State) :
  acyclic self ->
  forall x, fst (build self goal st) <> Raised (CircularDependency x).
Proof.
  intros A x. unfold build, build_from.
  apply build_fuel_no_circular; [exact A|]. intros v [].
Qed.

(** The diamond [a: b c], [b: d], [c: d]: [d] is reached twice, through
    sibling subtrees, and no cycle is reported. *)
Lemma build_acyclic_never_circular_witness :
  let t := fun ds => mkTarget ds [] "" "General" in
  let self := mkBuildSystem []
                [("a", t ["b"; "c"]); ("b", t ["d"]); ("c", t ["d"]); ("d", t [])]
                None in
  fst (@build Demo.os self "a" (@mkState Demo.os [] [])) = Done
  /\ forall x, fst (@build Demo.os self "a" (@mkState Demo.os [] []))
               <> Raised (CircularDependency x).
Proof.
  cbv zeta. split; [reflexivity|].
  apply (@build_acyclic_never_circular Demo.os).
  apply (ranked_acyclic _ (fun s => String.length s
                                     + (if String.eqb s "a" then 2 else 0)
                                     + (if String.eqb s "d" then 0 else 1))).
  reflexivity.
Defined.

Section CycleReached.

Context {os : OS}.
Variable self : BuildSystem.


Lemma in_set_cons (t : string) (visited : list string) (d : string) :
  in_set (t :: visited) d = (String.eqb d t || in_set visited d)%bool.
Proof. reflexivity. Qed.


Lemma first_dep_edge (t d : string) :
  first_dep self t = Some d ->
  exists info rest, PyDict.get (targets self) t = Some info
                    /\ deps info = d :: rest.
Proof.
  unfold first_dep. destruct (PyDict.get (targets self) t) as [info|];
    [|discriminate].
  destruct (deps info) as [|d' rest] eqn:E; [discriminate|].
  intros [= ->]. now exists info, rest.
Qed.

Lemma follows_trans (x : string) (path : list string) :
  forall t, follows_first_deps self t path x = true ->
  forall y, In y (t :: path) -> clos_trans_1n string (dep_edge self) y x.
Proof.
  induction path as [|u path IH]; intros t F y I; cbn [follows_first_deps] in F;
    destruct (first_dep self t) as [d|] eqn:E; try discriminate;
    destruct (first_dep_edge _ _ E) as (info & rest & G & Ds).
  - apply String.eqb_eq in F as ->. destruct I as [<-|[]].
    apply Relation_Operators.t1n_step. exists info. rewrite Ds. split; [exact G|now left].
  - apply andb_prop in F as [Eu F]. apply String.eqb_eq in Eu as ->.
    destruct I as [<-|I]; [|now apply (IH u)].
    eapply Relation_Operators.t1n_trans; [|apply (IH u F u); now left].
    exists info. rewrite Ds. split; [exact G|now left].
Qed.

(** Going down first dependencies, nothing is checked or run before
    the repeated name is met. *)
Lemma build_from_first_deps (x : string) (path : list string) :
  forall t visited st,
    follows_first_deps self t path x = true ->
    distinct (t :: path) = true ->
    (forall y, In y (t :: path) -> in_set visited y = false) ->
    In x (t :: path) \/ In x visited ->
    build_from self t visited st = (Raised (CircularDependency x), st).
Proof.
  induction path as [|u path IH]; intros t visited st F N V X;
    cbn [follows_first_deps] in F;
    destruct (first_dep self t) as [d|] eqn:E; try discriminate;
    destruct (first_dep_edge _ _ E) as (info & rest & G & Ds);
    rewrite build_from_unfold, (V t (or_introl eq_refl)), G, Ds;
    cbn [for_each].
  - apply String.eqb_eq in F as ->.
    rewrite build_from_unfold.
    assert (in_set (t :: visited) x = true) as ->; [|reflexivity].
    apply in_set_true. destruct X as [[<-|[]]|X]; [now left|now right].
  - apply andb_prop in F as [Eu F]. apply String.eqb_eq in Eu as ->.
    cbn [distinct] in N. apply andb_prop in N as [Nt N].
    apply negb_true_iff in Nt.
    rewrite (IH u (t :: visited) st F N); [reflexivity| |].
    + intros y I. rewrite in_set_cons, (V y (or_intror I)), orb_false_r.
      apply String.eqb_neq. intros ->.
      change (in_set (u :: path) t = false) in Nt.
      apply in_set_false in Nt. contradiction.
    + destruct X as [[<-|X]|X]; [right; now left|now left|right; now right].
Qed.

End CycleReached.


(** ** [build]: a satisfied target *)

Section UpToDateFacts.

Context {os : OS}.
Variable self : BuildSystem.

Lemma up_to_date_dep (w : World) (t : string) (info : Target) (e : string) :
  up_to_date self w t ->
  PyDict.get (targets self) t = Some info -> In e (deps info) ->
  up_to_date self w e.
Proof.
  intros U G I d R. apply U.
  eapply Relation_Operators.rt1n_trans; [|exact R]. now exists info.
Qed.

Lemma up_to_date_no_rebuild (w : World) (t : string) (info : Target) :
  up_to_date self w t ->
  PyDict.get (targets self) t = Some info ->
  needs_rebuild self w t (deps info) = false.
Proof.
  intros U G. destruct (U t) as [X M]; [constructor|].
  unfold needs_rebuild. rewrite X. cbn [negb].
  destruct (needs_rebuild_loop self w (getmtime w t) (deps info)) eqn:N;
    [|reflexivity].
  apply needs_rebuild_loop_true in N as (e & I & [[_ Gt]|[Xe _]]).
  - specialize (M info e G I). lia.
  - destruct (up_to_date_dep w t info e U G I e) as [Xe' _]; [constructor|].
    congruence.
Qed.

(** Nothing is run and the state is the one the call received. *)
Lemma build_fuel_up_to_date (n : nat) :
  forall t visited st,
    up_to_date self (world st) t ->
    exists r, build_fuel n self t visited st = (r, st)
              /\ (r = Done
                  \/ (r = Exhausted \/ exists x, r = Raised (CircularDependency x))).
Proof.
  induction n as [|n IH]; intros t visited st U.
  - exists Exhausted. split; [reflexivity|]. right. now left.
  - rewrite build_fuel_S. destruct (in_set visited t).
    { eexists. split; [reflexivity|]. right. right. now eexists. }
    destruct (PyDict.get (targets self) t) as [info|] eqn:G.
    + destruct (for_each_same_state
                  (fun r => r = Exhausted
                            \/ exists x, r = Raised (CircularDependency x))
                  (fun dep => build_fuel n self dep (t :: visited))
                  (deps info) st) as (r & -> & H).
      { intros e I. apply IH. now apply (up_to_date_dep _ t info). }
      destruct H as [->|H].
      * rewrite (up_to_date_no_rebuild _ t info U G).
        exists Done. now split; [|left].
      * exists r. split; [|now right].
        destruct H as [->|[x ->]]; reflexivity.
    + destruct (U t) as [X _]; [constructor|]. rewrite X.
      exists Done. now split; [|left].
Qed.

Lemma reach_within (w : World) (names : list string) (t d : string) :
  fresh_within self w names = true ->
  In t names -> reach self t d -> In d names.
Proof.
  intros F I R. unfold fresh_within in F. rewrite forallb_forall in F.
  induction R as [|a b c (info & G & Ib) R IH]; [exact I|].
  apply IH. specialize (F a I). apply andb_prop in F as [_ F].
  rewrite G, forallb_forall in F. specialize (F b Ib).
  apply andb_prop in F as [F _]. now apply in_set_true in F.
Qed.

Lemma fresh_within_up_to_date (w : World) (names : list string) (t : string) :
  fresh_within self w names = true ->
  existsb (String.eqb t) names = true ->
  up_to_date self w t.
Proof.
  intros F I d R. apply (in_set_true names t) in I.
  pose proof (reach_within w names t d F I R) as Id.
  unfold fresh_within in F. rewrite forallb_forall in F.
  specialize (F d Id). apply andb_prop in F as [X F]. split; [exact X|].
  intros info e G Ie. rewrite G, forallb_forall in F.
  specialize (F e Ie). apply andb_prop in F as [_ F]. now apply Z.leb_le.
Qed.

End UpToDateFacts.

(** C6.  When the file of the target and the files of all its transitive
    dependencies exist, and no file is older than the file of a
    dependency it lists, [build] runs no command and leaves the state as
    it was.  The call returns, or reports a cycle; in an acyclic graph it
    returns. *)
Theorem build_up_to_date_idempotent {os : OS} (self : BuildSystem)
        (goal : string) (st : State) :
  up_to_date self (world st) goal ->
  snd (build self goal st) = st
  /\ (fst (build self goal st) = Done
      \/ exists x, fst (build self goal st) = Raised (CircularDependency x))
  /\ (acyclic self -> build self goal st = (Done, st)).
Proof.
  intros U. unfold build.
  pose proof (build_from_not_exhausted self goal [] st) as NE.
  unfold build_from in *.
  destruct (build_fuel_up_to_date self (S (List.length (targets self)))
              goal [] st U) as (r & E & H).
  rewrite E in *. cbn [fst snd] in *.
  assert (K : r = Done \/ exists x, r = Raised (CircularDependency x)).
  { destruct H as [H|[H|H]]; [now left|contradiction|now right]. }
  split; [reflexivity|]. split; [exact K|].
  intros A. destruct K as [->|[x ->]]; [reflexivity|].
  pose proof (build_fuel_no_circular self (S (List.length (targets self))) A
                goal [] st ltac:(intros v []) x) as C.
  rewrite E in C. now destruct C.
Qed.

(** [prog] was linked after [main.o], which was compiled after [main.c]:
    building [prog] again runs nothing. *)
Lemma build_up_to_date_idempotent_witness :
  let self := mkBuildSystem [("CC", "gcc")]
                [("prog", mkTarget ["main.o"] ["$CC -o prog main.o"] "" "General");
                 ("main.o", mkTarget ["main.c"] ["$CC -c main.c"] "" "General")]
                (Some "prog") in
  let st := @mkState Demo.os [("main.c", 1%Z); ("main.o", 2%Z); ("prog", 2%Z)] [] in
  snd (@build Demo.os self "prog" st) = st.
Proof.
  cbv zeta. apply (@build_up_to_date_idempotent Demo.os).
  apply (fresh_within_up_to_date _ _ ["prog"; "main.o"; "main.c"]); reflexivity.
Defined.

(** ** [build]: running the commands *)

Section CommandFacts.

Context {os : OS}.
Variable self : BuildSystem.

(** The loop runs the expanded commands in order and stops at the
    first that returns non-zero. *)
Lemma run_commands_spec (cmds : list string) :
  forall st,
    (fst (run_commands self cmds st) = Done
     /\ trace (snd (run_commands self cmds st))
        = (trace st ++ map (succeeded self) cmds)%list)
    \/ (exists ran c rest rc,
          cmds = (ran ++ c :: rest)%list /\ rc <> 0%Z
          /\ fst (run_commands self cmds st)
             = Raised (CommandFailed (expand_vars self c))
          /\ trace (snd (run_commands self cmds st))
             = (trace st ++ map (succeeded self) ran
                ++ [(expand_vars self c, rc)])%list).
Proof.
  induction cmds as [|cmd cmds IH]; intros st.
  - left. cbn. now rewrite app_nil_r.
  - cbn [run_commands].
    destruct (subprocess_run (expand_vars self cmd) (world st)) as [w' rc].
    destruct (Z.eqb_spec rc 0) as [->|N].
    + destruct (IH (mkState w' (trace st ++ [(expand_vars self cmd, 0%Z)])))
        as [[D T]|(ran & c & rest & rc & -> & N & D & T)].
      * left. split; [exact D|]. rewrite T. cbn [trace map].
        now rewrite <- app_assoc.
      * right. exists (cmd :: ran), c, rest, rc.
        split; [reflexivity|]. split; [exact N|]. split; [exact D|].
        rewrite T. cbn [trace map]. now rewrite <- !app_assoc.
    + right. exists [], cmd, cmds, rc. now repeat split.
Qed.

Lemma run_commands_app (pre rest : list string) :
  forall st,
    run_commands self (pre ++ rest)%list st
    = match run_commands self pre st with
      | (Done, st2) => run_commands self rest st2
      | r => r
      end.
Proof.
  induction pre as [|c pre IH]; intros st; [reflexivity|].
  cbn [app run_commands].
  destruct (subprocess_run (expand_vars self c) (world st)) as [w' rc].
  destruct (rc =? 0)%Z; [apply IH|reflexivity].
Qed.

Lemma run_commands_done_trace (cmds : list string) (st st2 : State) :
  run_commands self cmds st = (Done, st2) ->
  trace st2 = (trace st ++ map (succeeded self) cmds)%list.
Proof.
  intros E. destruct (run_commands_spec cmds st)
    as [[_ T]|(ran & c & rest & rc & _ & _ & D & _)].
  - now rewrite E in T.
  - rewrite E in D. discriminate.
Qed.

(** The commands before [c] returned zero and [c] does not. *)
Lemma run_commands_first_failure (pre : list string) (c : string)
      (post : list string) (st st2 : State) :
  run_commands self pre st = (Done, st2) ->
  snd (subprocess_run (expand_vars self c) (world st2)) <> 0%Z ->
  run_commands self (pre ++ c :: post)%list st
  = (Raised (CommandFailed (expand_vars self c)),
     mkState (fst (subprocess_run (expand_vars self c) (world st2)))
             (trace st ++ map (succeeded self) pre
              ++ [(expand_vars self c,
                   snd (subprocess_run (expand_vars self c) (world st2)))])%list).
Proof.
  intros E N. rewrite run_commands_app, E. cbn [run_commands].
  rewrite (run_commands_done_trace pre st st2 E).
  destruct (subprocess_run (expand_vars self c) (world st2)) as [w' rc].
  cbn [fst snd] in *. apply Z.eqb_neq in N. rewrite N.
  now rewrite <- app_assoc.
Qed.

Lemma all_zero_succeeded (cmds : list string) :
  all_zero (map (succeeded self) cmds).
Proof. apply Forall_forall. intros x I. apply in_map_iff in I as (c & <- & _). reflexivity. Qed.

Lemma run_commands_failure_is_last (cmds : list string) (st : State) :
  failure_is_last st (run_commands self cmds st).
Proof.
  destruct (run_commands_spec cmds st)
    as [[D T]|(ran & c & rest & rc & _ & N & D & T)].
  - exists (map (succeeded self) cmds). split; [exact T|].
    rewrite D. apply all_zero_succeeded.
  - exists (map (succeeded self) ran ++ [(expand_vars self c, rc)])%list.
    split; [exact T|]. rewrite D.
    exists (map (succeeded self) ran), rc.
    split; [reflexivity|]. split; [exact N|apply all_zero_succeeded].
Qed.

Lemma failure_is_last_refl (r : outcome) (st : State) :
  (forall c, r <> Raised (CommandFailed c)) -> failure_is_last st (r, st).
Proof.
  intros N. exists []. split; [now rewrite app_nil_r|].
  cbn [fst]. destruct r as [|[]|]; try constructor. now destruct (N expanded_cmd).
Qed.

(** A step that returned, followed by a step of this kind. *)
Lemma failure_is_last_seq (st s1 : State) (res : outcome * State) :
  failure_is_last st (Done, s1) -> failure_is_last s1 res ->
  failure_is_last st res.
Proof.
  intros (n1 & T1 & Z1) (n2 & T2 & H). cbn [fst snd] in T1, Z1.
  exists (n1 ++ n2)%list. split; [now rewrite T2, T1, app_assoc|].
  destruct (fst res) as [|e|]; try (now apply Forall_app).
  destruct e; try (now apply Forall_app).
  destruct H as (ok & rc & -> & N & Z2).
  exists (n1 ++ ok)%list, rc. split; [now rewrite app_assoc|].
  split; [exact N|now apply Forall_app].
Qed.

Lemma for_each_failure_is_last {A} (body : A -> State -> outcome * State)
      (l : list A) :
  (forall x st, failure_is_last st (body x st)) ->
  forall st, failure_is_last st (for_each body l st).
Proof.
  intros B. induction l as [|x l IH]; intros st.
  - apply failure_is_last_refl. discriminate.
  - cbn [for_each]. pose proof (B x st) as Bx.
    destruct (body x st) as [[|e|] s1]; [|exact Bx..].
    eapply failure_is_last_seq; [exact Bx|apply IH].
Qed.

Lemma build_fuel_failure_is_last (n : nat) :
  forall t visited st, failure_is_last st (build_fuel n self t visited st).
Proof.
  induction n as [|n IH]; intros t visited st.
  - apply failure_is_last_refl. discriminate.
  - rewrite build_fuel_S. destruct (in_set visited t).
    { apply failure_is_last_refl. discriminate. }
    destruct (PyDict.get (targets self) t) as [info|].
    + pose proof (for_each_failure_is_last
                    (fun dep => build_fuel n self dep (t :: visited))
                    (deps info) (fun x s => IH x (t :: visited) s) st) as F.
      destruct (for_each _ (deps info) st) as [[|e|] s1]; [|exact F..].
      destruct (needs_rebuild self (world s1) t (deps info)); [|exact F].
      eapply failure_is_last_seq; [exact F|].
      apply run_commands_failure_is_last.
    + destruct (negb (path_exists (world st) t));
        apply failure_is_last_refl; discriminate.
Qed.

End CommandFacts.

(** C5.  (1) When a target must be rebuilt, its commands are expanded and
    run in the listed order; either all return zero, or the run stops at
    the first that does not, and the call raises "Command failed" with
    the expanded text of that command, the later commands not being run.
    (2) The same from the side of the shell: when the commands before [c]
    return zero and [c] does not, the call raises "Command failed" with
    the expanded [c], in the world [c] left, and the trace ends with [c].
    (3) For the whole build: every command run returned zero, except that
    a build that raised "Command failed" ran the reported command last. *)
Theorem build_commands_in_order {os : OS} (self : BuildSystem) :
  (forall t visited st info st1,
     in_set visited t = false ->
     PyDict.get (targets self) t = Some info ->
     for_each (fun dep => build_from self dep (t :: visited)) (deps info) st
     = (Done, st1) ->
     needs_rebuild self (world st1) t (deps info) = true ->
     (fst (build_from self t visited st) = Done
      /\ trace (snd (build_from self t visited st))
         = (trace st1 ++ map (succeeded self) (commands info))%list)
     \/ (exists ran c rest rc,
           commands info = (ran ++ c :: rest)%list /\ rc <> 0%Z
           /\ fst (build_from self t visited st)
              = Raised (CommandFailed (expand_vars self c))
           /\ trace (snd (build_from self t visited st))
              = (trace st1 ++ map (succeeded self) ran
                 ++ [(expand_vars self c, rc)])%list))
  /\ (forall t visited st info st1 pre c post st2,
        in_set visited t = false ->
        PyDict.get (targets self) t = Some info ->
        for_each (fun dep => build_from self dep (t :: visited)) (deps info) st
        = (Done, st1) ->
        needs_rebuild self (world st1) t (deps info) = true ->
        commands info = (pre ++ c :: post)%list ->
        run_commands self pre st1 = (Done, st2) ->
        snd (subprocess_run (expand_vars self c) (world st2)) <> 0%Z ->
        build_from self t visited st
        = (Raised (CommandFailed (expand_vars self c)),
           mkState (fst (subprocess_run (expand_vars self c) (world st2)))
                   (trace st1 ++ map (succeeded self) pre
                    ++ [(expand_vars self c,
                         snd (subprocess_run (expand_vars self c) (world st2)))])%list))
  /\ (forall goal st, failure_is_last st (build self goal st)).
Proof.
  split; [|split].
  - intros t visited st info st1 V G F N.
    rewrite build_from_unfold, V, G, F, N.
    apply run_commands_spec.
  - intros t visited st info st1 pre c post st2 V G F N C P R.
    rewrite build_from_unfold, V, G, F, N, C.
    now apply run_commands_first_failure.
  - intros goal st. apply build_fuel_failure_is_last.
Qed.

(** The second of three commands fails: the first two are in the trace,
    expanded, and the third is not. *)
Lemma build_commands_in_order_witness :
  let self := mkBuildSystem [("OUT", "f"); ("CHECK", "false")]
                [("all", mkTarget [] ["touch ${OUT}"; "$CHECK"; "touch g"] "" "General")]
                (Some "all") in
  let st := @mkState Demo.os [] [] in
  @build Demo.os self "all" st
  = (Raised (CommandFailed "false"),
     @mkState Demo.os [("f", 1%Z)] [("touch f", 0%Z); ("false", 1%Z)])
  /\ ((fst (@build_from Demo.os self "all" [] st) = Done
       /\ trace (snd (@build_from Demo.os self "all" [] st))
          = map (succeeded self) ["touch ${OUT}"; "$CHECK"; "touch g"])
      \/ (exists ran c rest rc,
            ["touch ${OUT}"; "$CHECK"; "touch g"] = (ran ++ c :: rest)%list
            /\ rc <> 0%Z
            /\ fst (@build_from Demo.os self "all" [] st)
               = Raised (CommandFailed (expand_vars self c))
            /\ trace (snd (@build_from Demo.os self "all" [] st))
               = (map (succeeded self) ran ++ [(expand_vars self c, rc)])%list)).
Proof.
  cbv zeta.
  destruct (@build_commands_in_order Demo.os
              (mkBuildSystem [("OUT", "f"); ("CHECK", "false")]
                 [("all", mkTarget [] ["touch ${OUT}"; "$CHECK"; "touch g"] "" "General")]
                 (Some "all")))
    as (in_order & first_failure & _).
  split.
  - apply (first_failure "all" [] (@mkState Demo.os [] [])
             (mkTarget [] ["touch ${OUT}"; "$CHECK"; "touch g"] "" "General")
             (@mkState Demo.os [] [])
             ["touch ${OUT}"] "$CHECK" ["touch g"]
             (@mkState Demo.os [("f", 1%Z)] [("touch f", 0%Z)]));
      try reflexivity.
    discriminate.
  - apply (in_order "all" [] (@mkState Demo.os [] [])
             (mkTarget [] ["touch ${OUT}"; "$CHECK"; "touch g"] "" "General")
             (@mkState Demo.os [] [])); reflexivity.
Defined.

(** ** [parse] *)

Section ParseFacts.

Lemma parse_line_malformed (n : nat) (line : string) (ps : ParserState) :
  malformed line = true -> parse_line n line ps = Raise (SyntaxError n).
Proof.
  unfold malformed, parse_line. cbv zeta. intros H.
  repeat (apply andb_prop in H as [H ?]).
  repeat match goal with
         | X : negb _ = true |- _ => apply negb_true_iff in X; rewrite X
         end.
  reflexivity.
Qed.

Lemma parse_lines_app (pre rest : list string) :
  forall n ps,
    parse_lines n (pre ++ rest)%list ps
    = match parse_lines n pre ps with
      | Raise e => Raise e
      | Ok ps' => parse_lines (n + List.length pre) rest ps'
      end.
Proof.
  induction pre as [|l pre IH]; intros n ps; cbn [parse_lines app List.length].
  - now rewrite Nat.add_0_r.
  - destruct (parse_line n l ps) as [ps'|e]; [|reflexivity].
    rewrite IH. now rewrite Nat.add_succ_r.
Qed.

Lemma parse_Some (self : BuildSystem) (lines : list string) :
  parse self (Some lines)
  = match parse_lines 1 lines (initial_state self) with
    | Raise e => Raise e
    | Ok ps => Ok (model ps)
    end.
Proof. reflexivity. Qed.

End ParseFacts.

(** C9 (as amended).  A buildfile that contains a line matching none of
    the recognised forms is rejected by [parse], and [run] then stops
    without building anything.  When the lines before it are accepted,
    the error is "Syntax error" with the number of that line. *)
Theorem parse_rejects_malformed_line (pre : list string) (line : string)
        (post : list string) :
  malformed line = true ->
  (exists e, parse new_BuildSystem (Some (pre ++ line :: post)%list) = Raise e)
  /\ (forall self, parse new_BuildSystem (Some pre) = Ok self ->
                   parse new_BuildSystem (Some (pre ++ line :: post)%list)
                   = Raise (SyntaxError (S (List.length pre))))
  /\ (forall (os : OS) argv st,
        exists e, run argv (Some (pre ++ line :: post)%list) st = (Raised e, st)).
Proof.
  intros M.
  assert (P : parse new_BuildSystem (Some (pre ++ line :: post)%list)
              = match parse_lines 1 pre (initial_state new_BuildSystem) with
                | Raise e => Raise e
                | Ok _ => Raise (SyntaxError (S (List.length pre)))
                end).
  { rewrite parse_Some, parse_lines_app.
    destruct (parse_lines 1 pre _) as [ps|e]; [|reflexivity].
    cbn [parse_lines]. now rewrite (parse_line_malformed _ _ _ M). }
  assert (E : exists e, parse new_BuildSystem (Some (pre ++ line :: post)%list) = Raise e).
  { rewrite P. destruct (parse_lines 1 pre _); eauto. }
  split; [exact E|]. split.
  - intros self S. rewrite P. rewrite parse_Some in S.
    now destruct (parse_lines 1 pre _).
  - intros os argv st. destruct E as [e E]. exists e. unfold run. now rewrite E.
Qed.

(** The example of the specification: the line [foo], here the fourth. *)
Lemma parse_rejects_malformed_line_witness :
  let pre := ["CC=gcc" ++ LF; "all: main.c" ++ LF; TAB ++ "$CC main.c" ++ LF] in
  let line := "foo" ++ LF in
  let post := ["# end" ++ LF] in
  parse new_BuildSystem (Some (pre ++ line :: post)%list)
  = Raise (SyntaxError 4).
Proof.
  cbv zeta.
  refine (proj1 (proj2 (parse_rejects_malformed_line
                          ["CC=gcc" ++ LF; "all: main.c" ++ LF; TAB ++ "$CC main.c" ++ LF]
                          ("foo" ++ LF) ["# end" ++ LF] _)) _ _); reflexivity.
Defined.

(** C9 fails as stated: the second line of this buildfile matches none of
    the recognised forms, but [parse] stops at the first line, an
    indented command outside a target, and reports that one. *)
Lemma parse_reports_earlier_error :
  malformed ("foo" ++ LF) = true
  /\ parse new_BuildSystem (Some [TAB ++ "cmd" ++ LF; "foo" ++ LF])
     = Raise (OrphanCommand 1)
  /\ parse new_BuildSystem (Some [TAB ++ "cmd" ++ LF; "foo" ++ LF])
     <> Raise (SyntaxError 2).
Proof. repeat split; try reflexivity. discriminate. Qed.

(** ** The commands [parse] stores *)

Section StripFacts.

Lemma lstrip_first (s : string) (c : ascii) :
  first_char (PyStr.lstrip s) = Some c -> PyStr.isspace c = false.
Proof.
  induction s as [|d s IH]; [discriminate|]. cbn [PyStr.lstrip].
  destruct (PyStr.isspace d) eqn:E; [exact IH|]. now intros [= <-].
Qed.

Lemma last_char_cons (d : ascii) (s : string) (c : ascii) :
  last_char s = Some c -> last_char (String d s) = Some c.
Proof. destruct s; [discriminate|]. now intros H. Qed.

(** [lstrip] returns a suffix, so it keeps the last character. *)
Lemma lstrip_last (s : string) (c : ascii) :
  last_char (PyStr.lstrip s) = Some c -> last_char s = Some c.
Proof.
  induction s as [|d s IH]; [discriminate|]. cbn [PyStr.lstrip].
  destruct (PyStr.isspace d); [|auto]. intros H. now apply last_char_cons, IH.
Qed.

Lemma rstrip_last (s : string) (c : ascii) :
  last_char (PyStr.rstrip s) = Some c -> PyStr.isspace c = false.
Proof.
  induction s as [|d s IH]; [discriminate|]. cbn [PyStr.rstrip].
  destruct (PyStr.rstrip s) as [|e r] eqn:R.
  - destruct (PyStr.isspace d) eqn:E; [discriminate|]. now intros [= <-].
  - intros H. apply IH. exact H.
Qed.

Lemma strip_first (s : string) (c : ascii) :
  first_char (PyStr.strip s) = Some c -> PyStr.isspace c = false.
Proof. apply lstrip_first. Qed.

Lemma strip_last (s : string) (c : ascii) :
  last_char (PyStr.strip s) = Some c -> PyStr.isspace c = false.
Proof. intros H. now apply lstrip_last, rstrip_last in H. Qed.

Lemma set_In {V} (d : PyDict.t V) (k : string) (v : V) (k' : string) (v' : V) :
  In (k', v') (PyDict.set d k v) -> (k', v') = (k, v) \/ In (k', v') d.
Proof.
  induction d as [|[k0 v0] d IH]; cbn [PyDict.set].
  - intros [H|[]]. now left.
  - destruct (String.eqb_spec k0 k) as [->|N].
    + intros [H|H]; [now left|right; now right].
    + intros [H|H]; [right; now left|].
      destruct (IH H); [now left|right; now right].
Qed.

End StripFacts.

Section ParserInvariant.

(** The line that reaches the indentation case is stored stripped. *)
Lemma stored_command_well_formed (line : string) :
  is_empty (PyStr.strip line) = false ->
  PyStr.startswith (PyStr.strip line) "#" = false ->
  well_formed_command (PyStr.strip line).
Proof.
  intros E H. repeat split.
  - intros Z. now rewrite Z in E.
  - apply strip_first.
  - apply strip_last.
  - exact H.
Qed.

Lemma append_command_well_formed ts name stripped ts' :
  commands_well_formed ts -> well_formed_command stripped ->
  append_command ts name stripped = Ok ts' ->
  commands_well_formed ts'.
Proof.
  intros C W. unfold append_command.
  destruct (PyDict.get ts name) as [info|] eqn:G; [|discriminate].
  intros [= <-] n i cmd I Ic.
  apply set_In in I as [[= -> ->]|I]; [|now apply (C n i)].
  cbn [commands] in Ic. apply in_app_iff in Ic as [Ic|[<-|[]]]; [|exact W].
  apply (C name info); [now apply get_In|exact Ic].
Qed.

Lemma parse_line_well_formed (n : nat) (line : string) (ps ps' : ParserState) :
  commands_well_formed (targets (model ps)) ->
  parse_line n line ps = Ok ps' ->
  commands_well_formed (targets (model ps')).
Proof.
  intros C. unfold parse_line. cbv zeta.
  destruct (is_group_header (PyStr.strip line)); [now intros [= <-]|].
  destruct (is_empty (PyStr.strip line)) eqn:E.
  { destruct (truthy (current_target ps)); now intros [= <-]. }
  destruct (PyStr.startswith (PyStr.strip line) "#") eqn:H.
  { destruct (negb (truthy (current_target ps))); now intros [= <-]. }
  destruct (is_indented line).
  { destruct (current_target ps) as [[|c name]|]; try discriminate.
    destruct (append_command _ _ _) as [ts|e] eqn:A; [|discriminate].
    intros [= <-]. cbn [model targets].
    eapply append_command_well_formed; [exact C| |exact A].
    now apply stored_command_well_formed. }
  destruct (is_assignment (PyStr.strip line)).
  { destruct (PyStr.split_once "=" _) as [[p0 p1]|]; [|discriminate].
    now intros [= <-]. }
  destruct (PyStr.contains ":" (PyStr.strip line)); [|discriminate].
  destruct (PyStr.split_once ":" _) as [[p0 p1]|]; [|discriminate].
  intros [= <-]. cbn [model targets]. intros nm i cmd I Ic.
  apply set_In in I as [[= -> ->]|I]; [destruct Ic|now apply (C nm i)].
Qed.

Lemma parse_lines_well_formed (lines : list string) :
  forall n ps ps',
    commands_well_formed (targets (model ps)) ->
    parse_lines n lines ps = Ok ps' ->
    commands_well_formed (targets (model ps')).
Proof.
  induction lines as [|l lines IH]; intros n ps ps' C; cbn [parse_lines].
  - now intros [= <-].
  - destruct (parse_line n l ps) as [ps1|e] eqn:P; [|discriminate].
    apply IH. now apply (parse_line_well_formed n l ps).
Qed.

(** Blank lines and comment lines leave the target table alone. *)
Lemma parse_line_skips (n : nat) (line : string) (ps : ParserState) :
  is_empty (PyStr.strip line) = true
  \/ PyStr.startswith (PyStr.strip line) "#" = true ->
  exists ps', parse_line n line ps = Ok ps'
              /\ targets (model ps') = targets (model ps).
Proof.
  intros H. unfold parse_line. cbv zeta.
  destruct (is_group_header (PyStr.strip line)); [now eexists|].
  destruct (is_empty (PyStr.strip line)).
  { destruct (truthy (current_target ps)); now eexists. }
  destruct H as [H|H]; [discriminate|]. rewrite H.
  destruct (negb (truthy (current_target ps))); now eexists.
Qed.

End ParserInvariant.

(** C10.  In a buildfile that [parse] accepts, every stored command is
    non-empty, has no white space at either end and does not start with
    [#].  Blank lines and comment lines, indented or not, inside a target
    body or not, are handled before the indentation case: they are
    accepted and leave every command sequence as it was. *)
Theorem parse_commands_well_formed :
  (forall lines self name info cmd,
     parse new_BuildSystem (Some lines) = Ok self ->
     In (name, info) (PyDict.items (targets self)) ->
     In cmd (commands info) ->
     cmd <> ""
     /\ (forall c, first_char cmd = Some c -> PyStr.isspace c = false)
     /\ (forall c, last_char cmd = Some c -> PyStr.isspace c = false)
     /\ PyStr.startswith cmd "#" = false)
  /\ (forall n line ps,
        is_empty (PyStr.strip line) = true
        \/ PyStr.startswith (PyStr.strip line) "#" = true ->
        exists ps', parse_line n line ps = Ok ps'
                    /\ targets (model ps') = targets (model ps)).
Proof.
  split; [|exact parse_line_skips].
  intros lines self name info cmd P I Ic. rewrite parse_Some in P.
  destruct (parse_lines 1 lines _) as [ps|e] eqn:L; [|discriminate].
  injection P as <-.
  refine (parse_lines_well_formed lines 1 _ ps _ L name info cmd I Ic).
  intros n i c [].
Qed.

(** A target body with an indented comment and a blank line between two
    commands: only the two commands are stored. *)
Lemma parse_commands_well_formed_witness :
  let lines := ["all: main.c" ++ LF;
                TAB ++ "  gcc -c main.c  " ++ LF;
                TAB ++ "# link" ++ LF;
                "   " ++ LF;
                "    gcc -o all main.o" ++ LF] in
  let info := mkTarget ["main.c"] ["gcc -c main.c"; "gcc -o all main.o"] "" "General" in
  parse new_BuildSystem (Some lines)
  = Ok (mkBuildSystem [] [("all", info)] (Some "all"))
  /\ "gcc -c main.c" <> ""
  /\ (forall c, first_char "gcc -c main.c" = Some c -> PyStr.isspace c = false)
  /\ (forall c, last_char "gcc -c main.c" = Some c -> PyStr.isspace c = false)
  /\ PyStr.startswith "gcc -c main.c" "#" = false.
Proof.
  cbv zeta. split; [reflexivity|].
  apply (proj1 parse_commands_well_formed
               ["all: main.c" ++ LF;
                TAB ++ "  gcc -c main.c  " ++ LF;
                TAB ++ "# link" ++ LF;
                "   " ++ LF;
                "    gcc -o all main.o" ++ LF]
               (mkBuildSystem []
                  [("all", mkTarget ["main.c"] ["gcc -c main.c"; "gcc -o all main.o"]
                                    "" "General")]
                  (Some "all"))
               "all"
               (mkTarget ["main.c"] ["gcc -c main.c"; "gcc -o all main.o"] "" "General")
               "gcc -c main.c").
  - reflexivity.
  - simpl. now left.
  - simpl. now left.
Defined.


(* ================================================================== *)
(** * Further properties of the parser *)
(* ================================================================== *)

(** ** Dictionaries *)

Section DictFacts.

Context {V : Type}.

Lemma get_set_same (d : PyDict.t V) (k : string) (v : V) :
  PyDict.get (PyDict.set d k v) k = Some v.
Proof.
  induction d as [|[k0 v0] d IH]; cbn [PyDict.set PyDict.get].
  - now rewrite String.eqb_refl.
  - destruct (String.eqb k0 k) eqn:E; cbn [PyDict.get]; now rewrite E.
Qed.

Lemma get_set_other (d : PyDict.t V) (k k' : string) (v : V) :
  k' <> k -> PyDict.get (PyDict.set d k v) k' = PyDict.get d k'.
Proof.
  intros N. induction d as [|[k0 v0] d IH]; cbn [PyDict.set PyDict.get].
  - apply String.eqb_neq in N. now rewrite String.eqb_sym, N.
  - destruct (String.eqb_spec k0 k) as [->|N0]; cbn [PyDict.get].
    + apply String.eqb_neq in N. now rewrite String.eqb_sym, N.
    + now rewrite IH.
Qed.

Lemma mem_In_keys (d : PyDict.t V) (k : string) :
  PyDict.mem d k = true <-> In k (PyDict.keys d).
Proof.
  unfold PyDict.mem. induction d as [|[k0 v0] d IH]; cbn [PyDict.get PyDict.keys map fst].
  - split; [discriminate|intros []].
  - destruct (String.eqb_spec k0 k) as [->|N].
    + split; auto. now left.
    + rewrite IH. split; [now right|]. intros [E|I]; [contradiction|exact I].
Qed.

(** Assigning to a present key keeps the key order; assigning to an
    absent key appends it. *)
Lemma keys_set (d : PyDict.t V) (k : string) (v : V) :
  PyDict.keys (PyDict.set d k v)
  = if PyDict.mem d k then PyDict.keys d else (PyDict.keys d ++ [k])%list.
Proof.
  unfold PyDict.mem.
  induction d as [|[k0 v0] d IH]; cbn [PyDict.set PyDict.get PyDict.keys map fst app].
  - reflexivity.
  - destruct (String.eqb k0 k); [reflexivity|].
    cbn [map fst]. unfold PyDict.keys in IH. rewrite IH.
    now destruct (PyDict.get d k).
Qed.

Lemma NoDup_keys_set (d : PyDict.t V) (k : string) (v : V) :
  NoDup (PyDict.keys d) -> NoDup (PyDict.keys (PyDict.set d k v)).
Proof.
  intros N. rewrite keys_set. destruct (PyDict.mem d k) eqn:M; [exact N|].
  apply NoDup_app; [exact N|repeat constructor; intros []| ].
  intros x I [<-|[]]. apply mem_In_keys in I. congruence.
Qed.

End DictFacts.

(** ** The cases of the loop body *)

Section LineCases.

Lemma split_once_contains (sep : ascii) (s : string) :
  PyStr.contains (String sep "") s = true ->
  exists a b, PyStr.split_once sep s = Some (a, b).
Proof.
  induction s as [|c s IH]; intros H.
  - discriminate.
  - rewrite contains_step, prefix_cons, prefix_nil, andb_true_r in H.
    cbn [PyStr.split_once]. rewrite Ascii.eqb_sym.
    destruct (Ascii.eqb sep c); [now eexists; eexists|].
    destruct (IH H) as (a & b & ->). now eexists; eexists.
Qed.

(** [split(sep, 1)] cuts at the first [sep]: the text is put back by
    joining with [sep], and the first part is free of [sep]. *)
Lemma split_once_spec (sep : ascii) (s a b : string) :
  PyStr.split_once sep s = Some (a, b) ->
  s = a ++ String sep b /\ PyStr.contains (String sep "") a = false.
Proof.
  revert a. induction s as [|c s IH]; intros a; [discriminate|].
  cbn [PyStr.split_once]. destruct (Ascii.eqb_spec c sep) as [->|N].
  - intros [= <- <-]. now split.
  - destruct (PyStr.split_once sep s) as [[a' b']|]; [|discriminate].
    intros [= <- <-]. destruct (IH a' eq_refl) as [-> C]. split; [reflexivity|].
    rewrite contains_step, prefix_cons, C, orb_false_r.
    apply andb_false_intro1. apply Ascii.eqb_neq. congruence.
Qed.

Lemma line_cases (line : string) :
  is_group_header (PyStr.strip line) = true
  \/ skip_line line = true
  \/ command_line line = true
  \/ assignment_line line = true
  \/ definition_line line = true
  \/ malformed line = true.
Proof.
  unfold skip_line, command_line, assignment_line, definition_line, malformed.
  cbv zeta.
  destruct (is_group_header (PyStr.strip line)); [now left|right].
  destruct (is_empty (PyStr.strip line)); [now left|].
  destruct (PyStr.startswith (PyStr.strip line) "#"); [now left|right].
  destruct (is_indented line); [now left|right].
  destruct (is_assignment (PyStr.strip line)); [now left|right].
  destruct (PyStr.contains ":" (PyStr.strip line)); [now left|now right].
Qed.

Lemma parse_line_group (n : nat) (line : string) (ps : ParserState) :
  is_group_header (PyStr.strip line) = true ->
  parse_line n line ps
  = Ok (mkParserState (model ps) None
          (PyStr.strip (PyStr.drop 7 (PyStr.init (PyStr.strip line)))) []).
Proof. intros H. unfold parse_line. cbv zeta. now rewrite H. Qed.

Lemma parse_line_skip (n : nat) (line : string) (ps : ParserState) :
  skip_line line = true ->
  exists pd, parse_line n line ps
             = Ok (mkParserState (model ps) (current_target ps)
                     (current_group ps) pd).
Proof.
  unfold skip_line, parse_line. cbv zeta. intros H.
  apply andb_prop in H as [G H]. apply negb_true_iff in G. rewrite G.
  destruct (is_empty (PyStr.strip line)).
  - destruct (truthy (current_target ps)); [|now eexists].
    exists (pending_doc ps). now destruct ps.
  - cbn [orb] in H. rewrite H.
    destruct (negb (truthy (current_target ps))); [now eexists|].
    exists (pending_doc ps). now destruct ps.
Qed.

Lemma parse_line_command (n : nat) (line : string) (ps : ParserState) :
  command_line line = true ->
  parse_line n line ps
  = match current_target ps with
    | Some (String c name') =>
        match append_command (targets (model ps)) (String c name')
                             (PyStr.strip line) with
        | Raise e => Raise e
        | Ok ts =>
            Ok (mkParserState
                  (mkBuildSystem (variables (model ps)) ts
                                 (first_target (model ps)))
                  (current_target ps) (current_group ps) [])
        end
    | _ => Raise (OrphanCommand n)
    end.
Proof.
  unfold command_line, parse_line. cbv zeta. intros H.
  repeat (apply andb_prop in H as [H ?]).
  repeat match goal with
         | X : negb _ = true |- _ => apply negb_true_iff in X; rewrite X
         end.
  match goal with X : is_indented _ = true |- _ => rewrite X end.
  reflexivity.
Qed.

Lemma parse_line_assignment (n : nat) (line : string) (ps : ParserState) :
  assignment_line line = true ->
  exists part0 part1,
    PyStr.split_once "=" (PyStr.strip line) = Some (part0, part1)
    /\ PyStr.contains ":" (PyStr.strip line) = false
    /\ parse_line n line ps
       = Ok (mkParserState
               (mkBuildSystem
                  (PyDict.set (variables (model ps)) (PyStr.strip part0)
                              (PyStr.strip part1))
                  (targets (model ps)) (first_target (model ps)))
               None (current_group ps) []).
Proof.
  unfold assignment_line, parse_line. cbv zeta. intros H.
  repeat (apply andb_prop in H as [H ?]).
  repeat match goal with
         | X : negb _ = true |- _ => apply negb_true_iff in X; rewrite X
         end.
  match goal with X : is_assignment _ = true |- _ => rewrite X; rename X into A end.
  unfold is_assignment in A. apply andb_prop in A as [E C].
  apply negb_true_iff in C.
  destruct (split_once_contains _ _ E) as (a & b & S). rewrite S.
  now exists a, b.
Qed.

Lemma parse_line_definition (n : nat) (line : string) (ps : ParserState) :
  definition_line line = true ->
  parse_line n line ps
  = Ok (mkParserState
          (mkBuildSystem (variables (model ps))
             (PyDict.set (targets (model ps)) (defined_name line)
                (mkTarget (defined_deps line) []
                   match pending_doc ps with
                   | [] => ""
                   | _ => PyStr.join " " (pending_doc ps)
                   end
                   (current_group ps)))
             match first_target (model ps) with
             | None => Some (defined_name line)
             | Some t => Some t
             end)
          (Some (defined_name line)) (current_group ps) []).
Proof.
  unfold definition_line, parse_line, defined_name, defined_deps. cbv zeta.
  intros H. repeat (apply andb_prop in H as [H ?]).
  repeat match goal with
         | X : negb _ = true |- _ => apply negb_true_iff in X; rewrite X
         end.
  match goal with X : PyStr.contains _ _ = true |- _ => rewrite X; rename X into C end.
  destruct (split_once_contains _ _ C) as (a & b & S). now rewrite S.
Qed.

End LineCases.

(** ** What the loop keeps true *)

Section ParserState.

Lemma hd_keys_set {V} (d : PyDict.t V) (k : string) (v : V) :
  hd_error (PyDict.keys (PyDict.set d k v))
  = match hd_error (PyDict.keys d) with
    | None => Some k
    | Some t => Some t
    end.
Proof.
  destruct d as [|[k0 v0] d]; [reflexivity|].
  cbn [PyDict.set]. now destruct (String.eqb k0 k).
Qed.

Lemma mem_set {V} (d : PyDict.t V) (k t : string) (v : V) :
  PyDict.mem d t = true -> PyDict.mem (PyDict.set d k v) t = true.
Proof.
  unfold PyDict.mem. destruct (String.eqb_spec t k) as [->|N].
  - now rewrite get_set_same.
  - now rewrite get_set_other.
Qed.

Lemma mem_set_same {V} (d : PyDict.t V) (k : string) (v : V) :
  PyDict.mem (PyDict.set d k v) k = true.
Proof. unfold PyDict.mem. now rewrite get_set_same. Qed.

Lemma initial_state_ok : state_ok (initial_state new_BuildSystem).
Proof. repeat split; try constructor. discriminate. Qed.

Lemma append_command_Ok ts name stripped :
  PyDict.mem ts name = true ->
  exists info, PyDict.get ts name = Some info
  /\ append_command ts name stripped
     = Ok (PyDict.set ts name
             (mkTarget (deps info) (commands info ++ [stripped]) (doc info)
                       (group info))).
Proof.
  unfold PyDict.mem, append_command.
  destruct (PyDict.get ts name) as [info|]; [|discriminate].
  intros _. now exists info.
Qed.

(** With an open target the command is stored. *)
Lemma parse_line_command_open (n : nat) (line : string) (ps : ParserState) :
  state_ok ps -> command_line line = true ->
  truthy (current_target ps) = true ->
  exists name info,
    current_target ps = Some name /\ name <> ""
    /\ PyDict.get (targets (model ps)) name = Some info
    /\ parse_line n line ps
       = Ok (mkParserState
               (mkBuildSystem (variables (model ps))
                  (PyDict.set (targets (model ps)) name
                     (mkTarget (deps info) (commands info ++ [PyStr.strip line])
                               (doc info) (group info)))
                  (first_target (model ps)))
               (current_target ps) (current_group ps) []).
Proof.
  intros (K & _) C T. rewrite (parse_line_command n line ps C).
  destruct (current_target ps) as [[|c nm]|] eqn:E; try discriminate.
  destruct (append_command_Ok (targets (model ps)) (String c nm) (PyStr.strip line))
    as (info & G & ->); [apply K; [reflexivity|discriminate]|].
  exists (String c nm), info. repeat split; [discriminate|exact G].
Qed.

Lemma parse_line_state_ok (n : nat) (line : string) (ps ps' : ParserState) :
  state_ok ps -> parse_line n line ps = Ok ps' -> state_ok ps'.
Proof.
  intros OK. pose proof OK as (K & F & Nt & Nv).
  destruct (line_cases line) as [G|[S|[C|[A|[D|M]]]]].
  - rewrite (parse_line_group _ _ _ G). intros [= <-].
    split; [discriminate|]. now repeat split.
  - destruct (parse_line_skip n line ps S) as [pd ->]. intros [= <-].
    now repeat split.
  - destruct (truthy (current_target ps)) eqn:T.
    + destruct (parse_line_command_open n line ps OK C T)
        as (name & info & E & Ne & G & ->).
      intros [= <-]. unfold state_ok.
      cbn [model targets variables first_target current_target].
      split; [|split; [|split]].
      * intros t Et Nt'. now apply mem_set, K.
      * rewrite hd_keys_set, F.
        destruct (targets (model ps)) as [|[k v] d]; [discriminate|reflexivity].
      * now apply NoDup_keys_set.
      * exact Nv.
    + rewrite (parse_line_command _ _ _ C).
      now destruct (current_target ps) as [[|c nm]|].
  - destruct (parse_line_assignment n line ps A) as (p0 & p1 & _ & _ & ->).
    intros [= <-]. unfold state_ok.
    cbn [model targets variables first_target current_target].
    split; [discriminate|]. split; [exact F|]. split; [exact Nt|].
    now apply NoDup_keys_set.
  - rewrite (parse_line_definition _ _ _ D). intros [= <-]. unfold state_ok.
    cbn [model targets variables first_target current_target].
    split; [|split; [|split]].
    + intros t [= <-] _. apply mem_set_same.
    + rewrite hd_keys_set, F. now destruct (hd_error _).
    + now apply NoDup_keys_set.
    + exact Nv.
  - now rewrite (parse_line_malformed _ _ _ M).
Qed.

Lemma parse_lines_state_ok (lines : list string) :
  forall n ps ps',
    state_ok ps -> parse_lines n lines ps = Ok ps' -> state_ok ps'.
Proof.
  induction lines as [|l lines IH]; intros n ps ps' OK; cbn [parse_lines].
  - now intros [= <-].
  - destruct (parse_line n l ps) as [ps1|e] eqn:P; [|discriminate].
    apply IH. now apply (parse_line_state_ok n l ps).
Qed.

(** The two ways a line is refused. *)
Lemma parse_line_refused (n : nat) (line : string) (ps : ParserState) (e : Exception) :
  state_ok ps -> parse_line n line ps = Raise e ->
  (e = SyntaxError n /\ malformed line = true)
  \/ (e = OrphanCommand n /\ command_line line = true
      /\ truthy (current_target ps) = false).
Proof.
  intros OK.
  destruct (line_cases line) as [G|[S|[C|[A|[D|M]]]]].
  - now rewrite (parse_line_group _ _ _ G).
  - now destruct (parse_line_skip n line ps S) as [pd ->].
  - destruct (truthy (current_target ps)) eqn:T.
    + now destruct (parse_line_command_open n line ps OK C T)
        as (name & info & _ & _ & _ & ->).
    + rewrite (parse_line_command _ _ _ C).
      destruct (current_target ps) as [[|c nm]|]; try discriminate;
        intros [= <-]; right; auto.
  - now destruct (parse_line_assignment n line ps A) as (p0 & p1 & _ & _ & ->).
  - now rewrite (parse_line_definition _ _ _ D).
  - rewrite (parse_line_malformed _ _ _ M). intros [= <-]. now left.
Qed.

Lemma parse_lines_refused (lines : list string) :
  forall n ps e,
    state_ok ps -> parse_lines n lines ps = Raise e ->
    exists pre line post ps',
      lines = (pre ++ line :: post)%list
      /\ parse_lines n pre ps = Ok ps'
      /\ ((e = SyntaxError (n + List.length pre) /\ malformed line = true)
          \/ (e = OrphanCommand (n + List.length pre)
              /\ command_line line = true
              /\ truthy (current_target ps') = false)).
Proof.
  induction lines as [|l lines IH]; intros n ps e OK; cbn [parse_lines];
    [discriminate|].
  destruct (parse_line n l ps) as [ps1|e1] eqn:P.
  - intros R.
    destruct (IH (S n) ps1 e (parse_line_state_ok _ _ _ _ OK P) R)
      as (pre & line & post & ps' & -> & Q & H).
    exists (l :: pre), line, post, ps'. split; [reflexivity|].
    split; [cbn [parse_lines]; now rewrite P|].
    cbn [List.length]. now rewrite Nat.add_succ_r.
  - intros [= <-]. exists [], l, lines, ps. split; [reflexivity|].
    split; [reflexivity|]. cbn [List.length]. rewrite Nat.add_0_r.
    now apply parse_line_refused.
Qed.

End ParserState.

(** X1.  When [parse] refuses a buildfile that exists, the error names
    the first line that cannot be accepted: the lines before it are
    accepted, and either the line matches no recognised form ("Syntax
    error") or it is an indented command with no target open ("Command
    found outside of target block").  No other exception is raised. *)
Theorem parse_error_names_first_refused_line (lines : list string) (e : Exception) :
  parse new_BuildSystem (Some lines) = Raise e ->
  exists pre line post ps,
    lines = (pre ++ line :: post)%list
    /\ parse_lines 1 pre (initial_state new_BuildSystem) = Ok ps
    /\ ((e = SyntaxError (S (List.length pre)) /\ malformed line = true)
        \/ (e = OrphanCommand (S (List.length pre))
            /\ command_line line = true
            /\ truthy (current_target ps) = false)).
Proof.
  rewrite parse_Some.
  destruct (parse_lines 1 lines _) as [ps|e'] eqn:P; [discriminate|].
  intros [= <-].
  exact (parse_lines_refused lines 1 _ e' initial_state_ok P).
Qed.

Lemma parse_error_names_first_refused_line_witness :
  exists pre line post ps,
    ["CC=gcc" ++ LF; TAB ++ "$CC main.c" ++ LF; "foo" ++ LF]
    = (pre ++ line :: post)%list
    /\ parse_lines 1 pre (initial_state new_BuildSystem) = Ok ps
    /\ ((OrphanCommand 2 = SyntaxError (S (List.length pre))
         /\ malformed line = true)
        \/ (OrphanCommand 2 = OrphanCommand (S (List.length pre))
            /\ command_line line = true
            /\ truthy (current_target ps) = false)).
Proof.
  apply (parse_error_names_first_refused_line
           ["CC=gcc" ++ LF; TAB ++ "$CC main.c" ++ LF; "foo" ++ LF]
           (OrphanCommand 2)).
  reflexivity.
Defined.

(** X2.  After a group header, a variable assignment or the definition of
    a target with the empty name, no target is open: an indented command
    on the next line is refused as a command outside of a target block,
    whatever target was open before. *)
Theorem parse_command_after_closing_line
        (pre : list string) (closer cmd : string) (post : list string)
        (self : BuildSystem) :
  parse new_BuildSystem (Some pre) = Ok self ->
  closing_line closer = true ->
  command_line cmd = true ->
  parse new_BuildSystem (Some (pre ++ closer :: cmd :: post)%list)
  = Raise (OrphanCommand (List.length pre + 2)).
Proof.
  rewrite !parse_Some. intros P Cl Cm.
  destruct (parse_lines 1 pre _) as [ps|] eqn:Q; [|discriminate].
  rewrite parse_lines_app, Q. cbn [parse_lines].
  assert (H : exists ps', parse_line (1 + List.length pre) closer ps = Ok ps'
                          /\ truthy (current_target ps') = false).
  { unfold closing_line in Cl. apply orb_prop in Cl as [Cl|Cl];
      [apply orb_prop in Cl as [G|A]|].
    - rewrite (parse_line_group _ _ _ G). now eexists.
    - destruct (parse_line_assignment (1 + List.length pre) closer ps A)
        as (p0 & p1 & _ & _ & ->). now eexists.
    - apply andb_prop in Cl as [D E].
      rewrite (parse_line_definition _ _ _ D). eexists. split; [reflexivity|].
      cbn [current_target]. now destruct (defined_name closer). }
  destruct H as (ps' & -> & T).
  rewrite (parse_line_command _ _ _ Cm).
  replace (S (1 + List.length pre)) with (List.length pre + 2) by lia.
  now destruct (current_target ps') as [[|c nm]|].
Qed.

Lemma parse_command_after_closing_line_witness :
  let pre := ["all: main.c" ++ LF; TAB ++ "gcc -c main.c" ++ LF] in
  let closer := "OUT = prog" ++ LF in
  let cmd := TAB ++ "gcc -o prog main.o" ++ LF in
  parse new_BuildSystem (Some (pre ++ closer :: cmd :: [])%list)
  = Raise (OrphanCommand 4).
Proof.
  cbv zeta.
  apply (parse_command_after_closing_line
           ["all: main.c" ++ LF; TAB ++ "gcc -c main.c" ++ LF]
           ("OUT = prog" ++ LF) (TAB ++ "gcc -o prog main.o" ++ LF) []
           (mkBuildSystem [] [("all", mkTarget ["main.c"] ["gcc -c main.c"] "" "General")]
                          (Some "all")));
    reflexivity.
Defined.

(** X3.  In an accepted buildfile the remembered first target is the
    first key of the target table (and there is none exactly when the
    table is empty), so the default goal of [run] is a known target; and
    no target name and no variable name occurs twice in its table. *)
Theorem parse_first_target_heads_table (lines : list string) (self : BuildSystem) :
  parse new_BuildSystem (Some lines) = Ok self ->
  first_target self = hd_error (PyDict.keys (targets self))
  /\ (forall t, first_target self = Some t -> PyDict.mem (targets self) t = true)
  /\ NoDup (PyDict.keys (targets self))
  /\ NoDup (PyDict.keys (variables self)).
Proof.
  rewrite parse_Some.
  destruct (parse_lines 1 lines _) as [ps|] eqn:P; [|discriminate].
  intros [= <-].
  destruct (parse_lines_state_ok lines 1 _ ps initial_state_ok P)
    as (_ & F & Nt & Nv).
  repeat split; auto.
  intros t E. rewrite F in E. apply mem_In_keys.
  destruct (PyDict.keys (targets (model ps))); [discriminate|].
  injection E as ->. now left.
Qed.

Lemma parse_first_target_heads_table_witness :
  let self := mkBuildSystem [("CC", "cc")]
                [("b", mkTarget [] ["two"] "" "General");
                 ("a", mkTarget [] [] "" "General")] (Some "b") in
  first_target self = hd_error (PyDict.keys (targets self))
  /\ (forall t, first_target self = Some t -> PyDict.mem (targets self) t = true)
  /\ NoDup (PyDict.keys (targets self))
  /\ NoDup (PyDict.keys (variables self)).
Proof.
  cbv zeta.
  apply (parse_first_target_heads_table
           ["CC=gcc" ++ LF; "b:" ++ LF; TAB ++ "one" ++ LF; "a:" ++ LF;
            "CC=cc" ++ LF; "b:" ++ LF; TAB ++ "two" ++ LF]).
  reflexivity.
Defined.

(** ** White space *)

Section SpaceFacts.

Lemma rstrip_all_space (w : string) :
  all_space w = true -> PyStr.rstrip w = "".
Proof.
  induction w as [|c w IH]; [reflexivity|]. cbn [all_space PyStr.rstrip].
  intros H. apply andb_prop in H as [C H]. now rewrite (IH H), C.
Qed.

(** White space at the end of a line, its line end included, is
    stripped away. *)
Lemma rstrip_app_space (s w : string) :
  all_space w = true -> PyStr.rstrip (s ++ w) = PyStr.rstrip s.
Proof.
  intros H. induction s as [|c s IH].
  - cbn [append]. now apply rstrip_all_space.
  - cbn [append PyStr.rstrip]. now rewrite IH.
Qed.

Lemma strip_app_space (s w : string) :
  all_space w = true -> PyStr.strip (s ++ w) = PyStr.strip s.
Proof. intros H. unfold PyStr.strip. now rewrite rstrip_app_space. Qed.

Lemma lstrip_suffix (s : string) :
  exists w, s = w ++ PyStr.lstrip s.
Proof.
  induction s as [|c s [w IH]]; [now exists ""|]. cbn [PyStr.lstrip].
  destruct (PyStr.isspace c); [|now exists ""].
  exists (String c w). cbn [append]. now rewrite <- IH.
Qed.

Lemma rstrip_prefix (s : string) :
  exists w, s = PyStr.rstrip s ++ w.
Proof.
  induction s as [|c s [w IH]]; [now exists ""|]. cbn [PyStr.rstrip].
  destruct (PyStr.rstrip s) as [|d r] eqn:R.
  - destruct (PyStr.isspace c).
    + exists (String c s). reflexivity.
    + exists w. cbn [append] in *. now rewrite <- IH.
  - exists w. cbn [append] in *. now rewrite <- IH.
Qed.

(** Stripping keeps a part of the text, so it brings in no character. *)
Lemma strip_contains (t s : string) :
  PyStr.contains t (PyStr.strip s) = true -> PyStr.contains t s = true.
Proof.
  intros H. apply contains_spec in H as (a & b & E). apply contains_spec.
  destruct (rstrip_prefix s) as [w1 E1].
  destruct (lstrip_suffix (PyStr.rstrip s)) as [w2 E2].
  unfold PyStr.strip in E. rewrite E in E2. rewrite E2 in E1.
  exists (w2 ++ a), (b ++ w1). rewrite E1.
  now rewrite !str_app_assoc.
Qed.

Lemma strip_free (t s : string) :
  PyStr.contains t s = false -> PyStr.contains t (PyStr.strip s) = false.
Proof.
  intros H. destruct (PyStr.contains t (PyStr.strip s)) eqn:E; [|reflexivity].
  apply strip_contains in E. congruence.
Qed.

Lemma strip_trimmed (s : string) : trimmed (PyStr.strip s).
Proof. split; [apply strip_first|apply strip_last]. Qed.

Lemma contains_app_l (t a b : string) :
  PyStr.contains t (a ++ b) = false -> PyStr.contains t a = false.
Proof.
  intros H. destruct (PyStr.contains t a) eqn:E; [|reflexivity].
  apply contains_spec in E as (x & y & ->).
  assert (PyStr.contains t ((x ++ t ++ y) ++ b) = true); [|congruence].
  apply contains_spec. exists x, (y ++ b). now rewrite !str_app_assoc.
Qed.

Lemma contains_app_r (t a b : string) :
  PyStr.contains t (a ++ b) = false -> PyStr.contains t b = false.
Proof.
  intros H. destruct (PyStr.contains t b) eqn:E; [|reflexivity].
  apply contains_spec in E as (x & y & ->).
  assert (PyStr.contains t (a ++ x ++ t ++ y) = true); [|congruence].
  apply contains_spec. exists (a ++ x), y. now rewrite !str_app_assoc.
Qed.

Lemma no_space_snoc (s : string) (c : ascii) :
  no_space s = true -> PyStr.isspace c = false ->
  no_space (s ++ String c "") = true.
Proof.
  intros N C. induction s as [|d s IH]; cbn [append no_space] in *.
  - now rewrite C.
  - apply andb_prop in N as [D N]. now rewrite D, IH.
Qed.

(** [split()] gives non-empty pieces without white space. *)
Lemma split_ws_go_pieces (s : string) :
  forall cur, no_space cur = true ->
  forall d, In d (PyStr.split_ws_go cur s) -> d <> "" /\ no_space d = true.
Proof.
  induction s as [|c s IH]; intros cur N d; cbn [PyStr.split_ws_go].
  - destruct cur; [intros []|]. intros [<-|[]]. split; [discriminate|exact N].
  - destruct (PyStr.isspace c) eqn:C.
    + destruct cur as [|e cur].
      * apply IH. reflexivity.
      * intros [<-|I]; [split; [discriminate|exact N]|].
        now apply (IH "" eq_refl).
    + apply IH. now apply no_space_snoc.
Qed.

Lemma split_ws_pieces (s d : string) :
  In d (PyStr.split_ws s) -> d <> "" /\ no_space d = true.
Proof. now apply split_ws_go_pieces. Qed.

End SpaceFacts.

(** X4.  White space at the end of a line never changes how the line is
    read: a line parses the same with or without its line end, a carriage
    return before it, or trailing blanks. *)
Theorem parse_line_ignores_trailing_space
        (n : nat) (line w : string) (ps : ParserState) :
  all_space w = true ->
  parse_line n (line ++ w) ps = parse_line n line ps.
Proof.
  intros H. unfold parse_line. cbv zeta. rewrite (strip_app_space line w H).
  destruct line as [|c line].
  - cbn [append]. unfold PyStr.strip at 1 2 3 4 5. cbn [PyStr.rstrip PyStr.lstrip].
    reflexivity.
  - assert (I : is_indented (String c line ++ w) = is_indented (String c line)).
    { unfold is_indented, PyStr.startswith, TAB.
      change (String c line ++ w) with (String c (line ++ w)).
      now rewrite !prefix_cons, !prefix_nil. }
    now rewrite I.
Qed.

Lemma parse_line_ignores_trailing_space_witness :
  let CR := String (ascii_of_nat 13) "" in
  parse_line 3 ("all: a b" ++ " " ++ CR ++ LF) (initial_state new_BuildSystem)
  = parse_line 3 "all: a b" (initial_state new_BuildSystem).
Proof.
  cbv zeta.
  apply (parse_line_ignores_trailing_space 3 "all: a b"
           (" " ++ String (ascii_of_nat 13) "" ++ LF)).
  reflexivity.
Defined.

(** ** The names [parse] stores *)

Section NameFacts.

Lemma names_ok_initial : names_ok new_BuildSystem.
Proof. split; intros ? ? []. Qed.

Lemma definition_line_parts (line : string) :
  definition_line line = true ->
  exists part0 part1,
    PyStr.split_once ":" (PyStr.strip line) = Some (part0, part1)
    /\ defined_name line = PyStr.strip part0
    /\ defined_deps line = PyStr.split_ws (PyStr.strip part1).
Proof.
  unfold definition_line, defined_name, defined_deps. cbv zeta. intros H.
  apply andb_prop in H as [_ C].
  destruct (split_once_contains _ _ C) as (a & b & S). rewrite S.
  now exists a, b.
Qed.

Lemma parse_line_names_ok (n : nat) (line : string) (ps ps' : ParserState) :
  state_ok ps -> names_ok (model ps) ->
  parse_line n line ps = Ok ps' -> names_ok (model ps').
Proof.
  intros OK (T & Vs).
  destruct (line_cases line) as [G|[S|[C|[A|[D|M]]]]].
  - rewrite (parse_line_group _ _ _ G). now intros [= <-].
  - destruct (parse_line_skip n line ps S) as [pd ->]. now intros [= <-].
  - destruct (truthy (current_target ps)) eqn:Tr.
    + destruct (parse_line_command_open n line ps OK C Tr)
        as (name & info & E & Ne & G & ->).
      intros [= <-]. split; [|exact Vs]. cbn [model targets].
      intros nm i I. apply set_In in I as [[= -> ->]|I]; [|now apply T].
      cbn [deps]. apply (T name info). now apply get_In.
    + rewrite (parse_line_command _ _ _ C).
      now destruct (current_target ps) as [[|c nm]|].
  - destruct (parse_line_assignment n line ps A) as (p0 & p1 & S & C & ->).
    intros [= <-]. split; [exact T|]. cbn [model variables].
    intros k v I. apply set_In in I as [[= -> ->]|I]; [|now apply Vs].
    apply split_once_spec in S as [E F]. rewrite E in C.
    pose proof (contains_app_l _ _ _ C) as C0.
    pose proof (contains_app_r _ _ _ C) as C1.
    change (String "=" p1) with ("=" ++ p1) in C1.
    apply contains_app_r in C1.
    repeat split; try apply strip_first; try apply strip_last;
      now apply strip_free.
  - rewrite (parse_line_definition _ _ _ D). intros [= <-].
    split; [|exact Vs]. cbn [model targets].
    intros nm i I. apply set_In in I as [[= -> ->]|I]; [|now apply T].
    destruct (definition_line_parts line D) as (p0 & p1 & S & -> & ->).
    apply split_once_spec in S as [_ F]. cbn [deps].
    split; [apply strip_trimmed|]. split; [now apply strip_free|].
    intros d. apply split_ws_pieces.
  - now rewrite (parse_line_malformed _ _ _ M).
Qed.

Lemma parse_lines_names_ok (lines : list string) :
  forall n ps ps',
    state_ok ps -> names_ok (model ps) ->
    parse_lines n lines ps = Ok ps' -> names_ok (model ps').
Proof.
  induction lines as [|l lines IH]; intros n ps ps' OK N; cbn [parse_lines].
  - now intros [= <-].
  - destruct (parse_line n l ps) as [ps1|e] eqn:P; [|discriminate].
    apply IH; [now apply (parse_line_state_ok n l ps)
              |now apply (parse_line_names_ok n l ps)].
Qed.

End NameFacts.

(** X5.  In an accepted buildfile every target name is trimmed and free
    of [:], every dependency name is non-empty and free of white space,
    every variable name is trimmed and free of [=] and [:], and every
    variable value is trimmed and free of [:]. *)
Theorem parse_names_well_formed (lines : list string) (self : BuildSystem) :
  parse new_BuildSystem (Some lines) = Ok self -> names_ok self.
Proof.
  rewrite parse_Some.
  destruct (parse_lines 1 lines _) as [ps|] eqn:P; [|discriminate].
  intros [= <-].
  exact (parse_lines_names_ok lines 1 _ ps initial_state_ok names_ok_initial P).
Qed.

Lemma parse_names_well_formed_witness :
  names_ok (mkBuildSystem [("A B", "x = y")]
              [("a=b", mkTarget ["c:d"; "e"] [] "" "General")] (Some "a=b")).
Proof.
  apply (parse_names_well_formed
           ["A B =  x = y " ++ LF; "a=b :  c:d" ++ TAB ++ " e  " ++ LF]).
  reflexivity.
Defined.

(** ** Target bodies, assignments, groups and documentation *)

Section BodyFacts.

Lemma parse_accepts_prefix (pre rest : list string) (self : BuildSystem) :
  parse new_BuildSystem (Some (pre ++ rest)%list) = Ok self ->
  exists ps, parse_lines 1 pre (initial_state new_BuildSystem) = Ok ps
             /\ state_ok ps
             /\ exists ps', parse_lines (1 + List.length pre) rest ps = Ok ps'
                            /\ model ps' = self.
Proof.
  rewrite parse_Some, parse_lines_app.
  destruct (parse_lines 1 pre _) as [ps|] eqn:P; [|discriminate].
  destruct (parse_lines _ rest ps) as [ps'|] eqn:Q; [|discriminate].
  intros [= <-]. exists ps. split; [reflexivity|].
  split; [exact (parse_lines_state_ok pre 1 _ ps initial_state_ok P)|].
  now exists ps'.
Qed.

Lemma parse_Ok_state (pre : list string) (self : BuildSystem) :
  parse new_BuildSystem (Some pre) = Ok self ->
  exists ps, parse_lines 1 pre (initial_state new_BuildSystem) = Ok ps
             /\ state_ok ps /\ model ps = self.
Proof.
  rewrite parse_Some.
  destruct (parse_lines 1 pre _) as [ps|] eqn:P; [|discriminate].
  intros [= <-]. exists ps. split; [reflexivity|].
  split; [exact (parse_lines_state_ok pre 1 _ ps initial_state_ok P)|reflexivity].
Qed.

Lemma command_not_skip (line : string) :
  command_line line = false -> body_line line = true -> skip_line line = true.
Proof. unfold body_line. now intros ->. Qed.

(** Inside an open target a blank line or a comment changes nothing. *)
Lemma parse_line_skip_open (n : nat) (line : string) (ps : ParserState) :
  skip_line line = true -> truthy (current_target ps) = true ->
  parse_line n line ps = Ok ps.
Proof.
  unfold skip_line, parse_line. cbv zeta. intros H T.
  apply andb_prop in H as [G H]. apply negb_true_iff in G. rewrite G, T.
  destruct (is_empty (PyStr.strip line)); [reflexivity|].
  cbn [orb] in H. now rewrite H.
Qed.

(** The loop over a target body: commands are appended, blank lines and
    comments change nothing. *)
Lemma parse_lines_body (body : list string) :
  forall n ps name ds cs dc g,
    state_ok ps -> current_target ps = Some name -> name <> "" ->
    PyDict.get (targets (model ps)) name = Some (mkTarget ds cs dc g) ->
    forallb body_line body = true ->
    exists ps',
      parse_lines n body ps = Ok ps'
      /\ state_ok ps'
      /\ current_target ps' = Some name
      /\ current_group ps' = current_group ps
      /\ (pending_doc ps = [] -> pending_doc ps' = [])
      /\ PyDict.get (targets (model ps')) name
         = Some (mkTarget ds (cs ++ map PyStr.strip (filter command_line body)) dc g)
      /\ variables (model ps') = variables (model ps)
      /\ first_target (model ps') = first_target (model ps)
      /\ forall t, t <> name ->
                   PyDict.get (targets (model ps')) t
                   = PyDict.get (targets (model ps)) t.
Proof.
  induction body as [|l body IH]; intros n ps name ds cs dc g OK E Ne G B.
  - exists ps. cbn [filter map]. rewrite app_nil_r.
    split; [reflexivity|]. split; [exact OK|]. now repeat split.
  - cbn [forallb] in B. apply andb_prop in B as [Bl B]. cbn [parse_lines filter].
    assert (Tr : truthy (current_target ps) = true).
    { rewrite E. destruct name; [congruence|reflexivity]. }
    destruct (command_line l) eqn:C.
    + destruct (parse_line_command_open n l ps OK C Tr)
        as (name' & info & E' & _ & G' & P).
      rewrite E in E'. injection E' as <-. rewrite G in G'. injection G' as <-.
      cbn [deps commands doc group] in P. rewrite P.
      pose proof (parse_line_state_ok _ _ _ _ OK P) as OK1.
      edestruct (IH (S n) _ name ds (cs ++ [PyStr.strip l])%list dc g OK1)
        as (ps' & Q & OK' & E1 & G1 & D1 & T1 & V1 & F1 & O1);
        [exact E|exact Ne|cbn [model targets]; apply get_set_same|exact B|].
      exists ps'. cbn [map]. rewrite <- app_assoc in T1.
      split; [exact Q|]. split; [exact OK'|]. repeat split; auto.
      intros t Nt. rewrite (O1 t Nt). cbn [model targets].
      now apply get_set_other.
    + rewrite (parse_line_skip_open n l ps (command_not_skip l C Bl) Tr).
      destruct (IH (S n) ps name ds cs dc g OK E Ne G B)
        as (ps' & Q & OK' & E1 & G1 & D1 & T1 & V1 & F1 & O1).
      exists ps'. split; [exact Q|]. split; [exact OK'|]. repeat split; auto.
Qed.

End BodyFacts.

(** X6.  A definition of a target with a non-empty name followed by its
    body: the target then holds
    the dependencies of the definition line and, as commands, exactly the
    stripped command lines of the body in order; blank lines and comments
    of the body are dropped, and commands of an earlier definition of the
    same name are discarded.  Variables and other targets are untouched. *)
Theorem parse_target_body (pre : list string) (def : string)
        (body : list string) (self0 : BuildSystem) :
  parse new_BuildSystem (Some pre) = Ok self0 ->
  definition_line def = true ->
  defined_name def <> "" ->
  forallb body_line body = true ->
  exists self info,
    parse new_BuildSystem (Some (pre ++ def :: body)%list) = Ok self
    /\ PyDict.get (targets self) (defined_name def) = Some info
    /\ deps info = defined_deps def
    /\ commands info = map PyStr.strip (filter command_line body)
    /\ variables self = variables self0
    /\ forall t, t <> defined_name def ->
                 PyDict.get (targets self) t = PyDict.get (targets self0) t.
Proof.
  intros P D Ne B. destruct (parse_Ok_state pre self0 P) as (ps & Q & OK & <-).
  pose proof (parse_line_definition (1 + List.length pre) def ps D) as L.
  pose proof (parse_line_state_ok _ _ _ _ OK L) as OK1.
  edestruct (parse_lines_body body (S (1 + List.length pre)) _
               (defined_name def) (defined_deps def) []
               (doc_of (pending_doc ps)) (current_group ps) OK1)
    as (ps' & R & _ & _ & _ & _ & G & V & _ & O);
    [reflexivity|exact Ne|cbn [model targets]; apply get_set_same|exact B|].
  exists (model ps'). eexists. rewrite parse_Some, parse_lines_app, Q.
  cbn [parse_lines]. rewrite L, R. split; [reflexivity|].
  split; [exact G|]. cbn [deps commands]. repeat split; auto.
  intros t Nt. rewrite (O t Nt). cbn [model targets]. now apply get_set_other.
Qed.

Lemma parse_target_body_witness :
  let pre := ["all: old.c" ++ LF; TAB ++ "old command" ++ LF] in
  let def := "all: main.c util.c" ++ LF in
  let body := [TAB ++ "gcc -c main.c" ++ LF; LF; "  # then link" ++ LF;
               "    gcc -o all main.o" ++ LF] in
  exists self info,
    parse new_BuildSystem (Some (pre ++ def :: body)%list) = Ok self
    /\ PyDict.get (targets self) "all" = Some info
    /\ deps info = ["main.c"; "util.c"]
    /\ commands info = ["gcc -c main.c"; "gcc -o all main.o"]
    /\ variables self = []
    /\ forall t, t <> "all" ->
                 PyDict.get (targets self) t
                 = PyDict.get [("all", mkTarget ["old.c"] ["old command"] "" "General")] t.
Proof.
  cbv zeta.
  apply (parse_target_body
           ["all: old.c" ++ LF; TAB ++ "old command" ++ LF]
           ("all: main.c util.c" ++ LF)
           [TAB ++ "gcc -c main.c" ++ LF; LF; "  # then link" ++ LF;
            "    gcc -o all main.o" ++ LF]
           (mkBuildSystem [] [("all", mkTarget ["old.c"] ["old command"] "" "General")]
                          (Some "all")));
    try reflexivity.
  discriminate.
Defined.

(** X7.  A variable assignment line is cut at its first [=]: the
    stripped text before it becomes the name, the stripped text after it
    the value.  The name then looks up to that value, every other
    variable is unchanged, a name already present keeps its place in the
    table and a new one goes to the end; the targets are untouched. *)
Theorem parse_assignment (pre : list string) (line : string)
        (self0 : BuildSystem) :
  parse new_BuildSystem (Some pre) = Ok self0 ->
  assignment_line line = true ->
  exists raw_key raw_val self,
    PyStr.strip line = raw_key ++ String "=" raw_val
    /\ PyStr.contains "=" raw_key = false
    /\ parse new_BuildSystem (Some (pre ++ [line])%list) = Ok self
    /\ PyDict.get (variables self) (PyStr.strip raw_key)
       = Some (PyStr.strip raw_val)
    /\ (forall k, k <> PyStr.strip raw_key ->
                  PyDict.get (variables self) k = PyDict.get (variables self0) k)
    /\ PyDict.keys (variables self)
       = (if PyDict.mem (variables self0) (PyStr.strip raw_key)
          then PyDict.keys (variables self0)
          else PyDict.keys (variables self0) ++ [PyStr.strip raw_key])%list
    /\ targets self = targets self0.
Proof.
  intros P A. destruct (parse_Ok_state pre self0 P) as (ps & Q & OK & <-).
  destruct (parse_line_assignment (1 + List.length pre) line ps A)
    as (p0 & p1 & S & _ & L).
  destruct (split_once_spec _ _ _ _ S) as [E F].
  exists p0, p1. eexists. split; [exact E|]. split; [exact F|].
  rewrite parse_Some, parse_lines_app, Q. cbn [parse_lines]. rewrite L.
  split; [reflexivity|]. cbn [model variables targets].
  split; [apply get_set_same|]. split; [|split; [apply keys_set|reflexivity]].
  intros k N. now apply get_set_other.
Qed.

Lemma parse_assignment_witness :
  let self0 := mkBuildSystem [("CC", "gcc"); ("OUT", "prog")] [] None in
  let pre := ["CC=gcc" ++ LF; "OUT=prog" ++ LF] in
  let line := "CC = clang -O2 -DX=1" ++ LF in
  exists raw_key raw_val self,
    PyStr.strip line = raw_key ++ String "=" raw_val
    /\ PyStr.contains "=" raw_key = false
    /\ parse new_BuildSystem (Some (pre ++ [line])%list) = Ok self
    /\ PyDict.get (variables self) (PyStr.strip raw_key)
       = Some (PyStr.strip raw_val)
    /\ (forall k, k <> PyStr.strip raw_key ->
                  PyDict.get (variables self) k = PyDict.get (variables self0) k)
    /\ PyDict.keys (variables self)
       = (if PyDict.mem (variables self0) (PyStr.strip raw_key)
          then PyDict.keys (variables self0)
          else PyDict.keys (variables self0) ++ [PyStr.strip raw_key])%list
    /\ targets self = targets self0.
Proof.
  cbv zeta.
  apply (parse_assignment ["CC=gcc" ++ LF; "OUT=prog" ++ LF]
           ("CC = clang -O2 -DX=1" ++ LF)
           (mkBuildSystem [("CC", "gcc"); ("OUT", "prog")] [] None));
    reflexivity.
Defined.

Section GroupFacts.

Lemma parse_line_keeps_group (n : nat) (line : string) (ps ps' : ParserState) :
  is_group_header (PyStr.strip line) = false ->
  parse_line n line ps = Ok ps' -> current_group ps' = current_group ps.
Proof.
  intros H. unfold parse_line. cbv zeta. rewrite H.
  destruct (is_empty _).
  { destruct (truthy _); now intros [= <-]. }
  destruct (PyStr.startswith _ "#").
  { destruct (negb _); now intros [= <-]. }
  destruct (is_indented line).
  { destruct (current_target ps) as [[|c nm]|]; try discriminate.
    destruct (append_command _ _ _); [|discriminate]. now intros [= <-]. }
  destruct (is_assignment _).
  { destruct (PyStr.split_once "=" _) as [[a b]|]; [|discriminate].
    now intros [= <-]. }
  destruct (PyStr.contains ":" _); [|discriminate].
  destruct (PyStr.split_once ":" _) as [[a b]|]; [|discriminate].
  now intros [= <-].
Qed.

Lemma parse_lines_keeps_group (lines : list string) :
  forall n ps ps',
    forallb (fun l => negb (is_group_header (PyStr.strip l))) lines = true ->
    parse_lines n lines ps = Ok ps' -> current_group ps' = current_group ps.
Proof.
  induction lines as [|l lines IH]; intros n ps ps' H; cbn [parse_lines].
  - now intros [= <-].
  - cbn [forallb] in H. apply andb_prop in H as [Hl H].
    apply negb_true_iff in Hl.
    destruct (parse_line n l ps) as [ps1|] eqn:P; [|discriminate].
    intros Q. rewrite (IH _ _ _ H Q). now apply (parse_line_keeps_group n l).
Qed.

(** A definition read in a state whose current group is [g]. *)
Lemma parse_lines_then_definition (mid : list string) (def : string) :
  forall n ps ps',
    forallb (fun l => negb (is_group_header (PyStr.strip l))) mid = true ->
    definition_line def = true ->
    parse_lines n (mid ++ [def])%list ps = Ok ps' ->
    exists info, PyDict.get (targets (model ps')) (defined_name def) = Some info
                 /\ group info = current_group ps
                 /\ commands info = [].
Proof.
  intros n ps ps' H D. rewrite parse_lines_app.
  destruct (parse_lines n mid ps) as [ps1|] eqn:P; [|discriminate].
  cbn [parse_lines]. rewrite (parse_line_definition _ _ _ D). intros [= <-].
  cbn [model targets]. rewrite get_set_same. eexists. split; [reflexivity|].
  cbn [group commands]. split; [|reflexivity].
  now apply (parse_lines_keeps_group mid n).
Qed.

End GroupFacts.

(** X8.  A target belongs to the group of the nearest group header above
    its definition, whose label is the stripped text between [[group:]
    and the closing bracket; a target defined above every group header
    belongs to ["General"]. *)
Theorem parse_group_of_target (pre : list string) (hdr : string)
        (mid : list string) (def : string) (self : BuildSystem) :
  forallb (fun l => negb (is_group_header (PyStr.strip l))) mid = true ->
  definition_line def = true ->
  (is_group_header (PyStr.strip hdr) = true ->
   parse new_BuildSystem (Some (pre ++ hdr :: mid ++ [def])%list) = Ok self ->
   exists info, PyDict.get (targets self) (defined_name def) = Some info
                /\ group info = header_label hdr)
  /\ (parse new_BuildSystem (Some (mid ++ [def])%list) = Ok self ->
      exists info, PyDict.get (targets self) (defined_name def) = Some info
                   /\ group info = "General").
Proof.
  intros H D. split.
  - intros G P. apply parse_accepts_prefix in P as (ps & _ & _ & ps' & Q & <-).
    cbn [parse_lines] in Q. rewrite (parse_line_group _ _ _ G) in Q.
    destruct (parse_lines_then_definition mid def _ _ _ H D Q)
      as (info & Gt & Gr & _).
    now exists info.
  - rewrite parse_Some.
    destruct (parse_lines 1 _ _) as [ps'|] eqn:Q; [|discriminate].
    intros [= <-].
    destruct (parse_lines_then_definition mid def _ _ _ H D Q)
      as (info & Gt & Gr & _).
    now exists info.
Qed.

Lemma parse_group_of_target_witness :
  let t := fun g => mkTarget [] [] "" g in
  (exists info, PyDict.get [("a", t "General"); ("b", t "Build tools")] "b" = Some info
                /\ group info = header_label ("  [GROUP:  Build tools ]" ++ LF))
  /\ (exists info, PyDict.get [("z", t "General")] "z" = Some info
                   /\ group info = "General").
Proof.
  cbv zeta. split.
  - apply (proj1 (parse_group_of_target ["a:" ++ LF]
                    ("  [GROUP:  Build tools ]" ++ LF) ["X=1" ++ LF] ("b:" ++ LF)
                    (mkBuildSystem [("X", "1")]
                       [("a", mkTarget [] [] "" "General");
                        ("b", mkTarget [] [] "" "Build tools")] (Some "a"))
                    eq_refl eq_refl)); reflexivity.
  - apply (proj2 (parse_group_of_target [] "" [] ("z:" ++ LF)
                    (mkBuildSystem [] [("z", mkTarget [] [] "" "General")] (Some "z"))
                    eq_refl eq_refl)); reflexivity.
Defined.

Section DocFacts.





End DocFacts.



(** X10.  While a target with a non-empty name is open, comment lines are
    dropped: a target defined right after the body of another one has
    empty documentation, whatever comments stand above its definition. *)
Theorem parse_doc_lost_after_body (pre : list string) (def1 : string)
        (body : list string) (def2 : string) (self0 : BuildSystem) :
  parse new_BuildSystem (Some pre) = Ok self0 ->
  definition_line def1 = true -> defined_name def1 <> "" ->
  forallb body_line body = true ->
  definition_line def2 = true ->
  exists self info,
    parse new_BuildSystem (Some (pre ++ def1 :: body ++ [def2])%list) = Ok self
    /\ PyDict.get (targets self) (defined_name def2) = Some info
    /\ doc info = "".
Proof.
  intros P D1 Ne B D2. destruct (parse_Ok_state pre self0 P) as (ps & Q & OK & _).
  pose proof (parse_line_definition (1 + List.length pre) def1 ps D1) as L.
  pose proof (parse_line_state_ok _ _ _ _ OK L) as OK1.
  edestruct (parse_lines_body body (S (1 + List.length pre)) _
               (defined_name def1) (defined_deps def1) []
               (doc_of (pending_doc ps)) (current_group ps) OK1)
    as (ps' & R & _ & _ & _ & Z & _);
    [reflexivity|exact Ne|cbn [model targets]; apply get_set_same|exact B|].
  specialize (Z eq_refl).
  pose proof (parse_Some new_BuildSystem (pre ++ def1 :: body ++ [def2])%list) as E.
  rewrite parse_lines_app, Q in E. cbn [parse_lines] in E.
  rewrite L, parse_lines_app, R in E. cbn [parse_lines] in E.
  rewrite (parse_line_definition _ _ _ D2) in E.
  eexists. eexists. split; [exact E|].
  cbn [model targets]. rewrite get_set_same. split; [reflexivity|].
  cbn [doc]. now rewrite Z.
Qed.

Lemma parse_doc_lost_after_body_witness :
  let body := [TAB ++ "gcc -o prog main.c" ++ LF; LF; "# Remove the program" ++ LF] in
  let def1 := "prog: main.c" ++ LF in
  let def2 := "clean:" ++ LF in
  exists self info,
    parse new_BuildSystem (Some ([] ++ def1 :: body ++ [def2])%list) = Ok self
    /\ PyDict.get (targets self) "clean" = Some info
    /\ doc info = "".
Proof.
  cbv zeta.
  apply (parse_doc_lost_after_body [] ("prog: main.c" ++ LF)
           [TAB ++ "gcc -o prog main.c" ++ LF; LF; "# Remove the program" ++ LF]
           ("clean:" ++ LF) new_BuildSystem); try reflexivity.
  discriminate.
Defined.

(* ================================================================== *)
(** * Further properties of the expander and the executor *)
(* ================================================================== *)

Section DollarFacts.

Lemma contains_app_mid (t a b s : string) :
  s = a ++ t ++ b -> PyStr.contains t s = true.
Proof. intros ->. apply contains_spec. now exists a, b. Qed.

Lemma dollar_in_reference (k text : string) :
  PyStr.contains "$" text = false ->
  PyStr.contains (dollar k) text = false
  /\ PyStr.contains (braced k) text = false.
Proof.
  intros H. split.
  - destruct (PyStr.contains (dollar k) text) eqn:E; [|reflexivity].
    apply contains_spec in E as (a & b & ->).
    rewrite (contains_app_mid "$" a (k ++ b)) in H; [discriminate|].
    unfold dollar. now rewrite !str_app_assoc.
  - destruct (PyStr.contains (braced k) text) eqn:E; [|reflexivity].
    apply contains_spec in E as (a & b & ->).
    rewrite (contains_app_mid "$" a ("{" ++ k ++ "}" ++ b)) in H; [discriminate|].
    unfold braced. cbn [append]. now rewrite !str_app_assoc.
Qed.

End DollarFacts.

(** X11.  A text without a dollar sign is returned unchanged by
    [expand_vars], whatever the variables are (also with odd names, such
    as the empty one). *)
Theorem expand_vars_without_dollar (self : BuildSystem) (text : string) :
  PyStr.contains "$" text = false -> expand_vars self text = text.
Proof.
  intros H. apply expand_untouched. apply forallb_forall. intros [k v] _.
  cbn [fst]. destruct (dollar_in_reference k text H) as [-> ->]. reflexivity.
Qed.

Lemma expand_vars_without_dollar_witness :
  expand_vars (mkBuildSystem [("", "x"); ("CC", "gcc"); ("{", "y")] [] None)
              "gcc -o {out} CC {CC}"
  = "gcc -o {out} CC {CC}".
Proof.
  apply (expand_vars_without_dollar
           (mkBuildSystem [("", "x"); ("CC", "gcc"); ("{", "y")] [] None)).
  reflexivity.
Defined.

(** X12.  [needs_rebuild] looks at the dependencies as a set: two lists
    with the same members, in any order and with any repetitions, give
    the same answer. *)
Theorem needs_rebuild_same_members {os : OS} (self : BuildSystem) (w : World)
        (target : string) (deps deps' : list string) :
  (forall d, In d deps <-> In d deps') ->
  needs_rebuild self w target deps = needs_rebuild self w target deps'.
Proof.
  intros M. unfold needs_rebuild.
  destruct (negb (path_exists w target)); [reflexivity|].
  apply eq_true_iff_eq. rewrite !needs_rebuild_loop_true.
  split; intros (d & I & T); exists d; split; auto; now apply M.
Qed.

Lemma needs_rebuild_same_members_witness :
  let self := mkBuildSystem [] [] None in
  let w : @World Demo.os := [("out", 5%Z); ("a", 4%Z); ("b", 6%Z)] in
  @needs_rebuild Demo.os self w "out" ["a"; "b"; "a"]
  = @needs_rebuild Demo.os self w "out" ["b"; "a"].
Proof.
  cbv zeta. apply (@needs_rebuild_same_members Demo.os).
  intros d. cbn [In]. tauto.
Defined.

(** ** What an error of [build] tells *)

Section RaisedFacts.

Context {os : OS}.
Variable self : BuildSystem.

(** A loop that raises does so in one run of its body. *)
Lemma for_each_raised {A} (body : A -> State -> outcome * State) (l : list A) :
  forall st e st',
    for_each body l st = (Raised e, st') ->
    exists x s, In x l /\ body x s = (Raised e, st').
Proof.
  induction l as [|y l IH]; intros st e st'; cbn [for_each]; [discriminate|].
  destruct (body y st) as [[|e1|] s1] eqn:B.
  - intros F. destruct (IH _ _ _ F) as (x & s & I & E).
    exists x, s. split; [now right|exact E].
  - intros [= <- <-]. exists y, st. split; [now left|exact B].
  - discriminate.
Qed.

Lemma run_commands_raised (cmds : list string) (st st' : State) (e : Exception) :
  run_commands self cmds st = (Raised e, st') ->
  exists cmd, In cmd cmds /\ e = CommandFailed (expand_vars self cmd).
Proof.
  intros R. destruct (run_commands_spec self cmds st)
    as [[D _]|(ran & c & rest & rc & -> & _ & D & _)]; rewrite R in D.
  - discriminate.
  - injection D as ->. exists c. split; [|reflexivity].
    apply in_app_iff. right. now left.
Qed.

Lemma reach_step (t d x : string) :
  dep_edge self t d -> reach self d x -> reach self t x.
Proof. intros E R. eapply Relation_Operators.rt1n_trans; eauto. Qed.

Lemma raised_for_step (t d : string) (e : Exception) (st' : State) :
  dep_edge self t d -> raised_for self d e st' -> raised_for self t e st'.
Proof.
  intros E. destruct e; cbn [raised_for]; auto.
  - intros [R C]. split; [now apply (reach_step t d)|exact C].
  - intros (R & M & X). split; [now apply (reach_step t d)|now split].
  - intros (u & info & cmd & R & G & I & C). exists u, info, cmd.
    split; [now apply (reach_step t d)|now repeat split].
Qed.

Lemma build_fuel_raised (n : nat) :
  forall t visited st e st',
    (forall v, In v visited -> clos_trans_1n string (dep_edge self) v t) ->
    build_fuel n self t visited st = (Raised e, st') ->
    raised_for self t e st'.
Proof.
  induction n as [|n IH]; intros t visited st e st' Anc; [discriminate|].
  rewrite build_fuel_S.
  destruct (in_set visited t) eqn:V.
  { intros [= <- <-]. cbn [raised_for]. split; [constructor|].
    apply Anc. now apply in_set_true. }
  destruct (PyDict.get (targets self) t) as [info|] eqn:G.
  - destruct (for_each _ (deps info) st) as [[|e1|] s1] eqn:F.
    + destruct (needs_rebuild self (world s1) t (deps info)); [|discriminate].
      intros R. destruct (run_commands_raised _ _ _ _ R) as (cmd & I & ->).
      exists t, info, cmd. split; [constructor|now repeat split].
    + intros [= <- <-].
      destruct (for_each_raised _ _ _ _ _ F) as (d & s & I & B).
      apply (raised_for_step t d); [now exists info|].
      apply (IH d (t :: visited) s); [|exact B].
      intros v [<-|Iv].
      * apply Relation_Operators.t1n_step. now exists info.
      * eapply trans_then_edge; [now apply Anc|now exists info].
    + discriminate.
  - destruct (path_exists (world st) t) eqn:X; cbn [negb]; [discriminate|].
    intros [= <- <-]. cbn [raised_for]. split; [constructor|].
    split; [|exact X]. unfold PyDict.mem. now rewrite G.
Qed.

End RaisedFacts.

(** X13.  A "Circular dependency" error is never a false alarm: the name
    it reports is the goal or a transitive dependency of it, and it
    depends on itself. *)
Theorem build_circular_is_sound {os : OS} (self : BuildSystem) (goal x : string)
        (st st' : State) :
  build self goal st = (Raised (CircularDependency x), st') ->
  reach self goal x /\ on_cycle self x.
Proof.
  intros B.
  exact (build_fuel_raised self _ goal [] st _ st' ltac:(intros v []) B).
Qed.

Lemma build_circular_is_sound_witness :
  let self := mkBuildSystem []
                [("a", mkTarget ["c"; "b"] [] "" "General");
                 ("c", mkTarget [] ["touch c"] "" "General");
                 ("b", mkTarget ["a"] [] "" "General")] (Some "a") in
  reach self "a" "a" /\ on_cycle self "a".
Proof.
  cbv zeta.
  apply (@build_circular_is_sound Demo.os _ "a" "a" (@mkState Demo.os [] [])
           (@mkState Demo.os [("c", 1%Z)] [("touch c", 0%Z)])).
  reflexivity.
Defined.

(** X14.  A "No rule to make target" error reports a name that is the
    goal or a transitive dependency of it, that is not a known target,
    and that is not a file in the world the build stopped in. *)
Theorem build_no_rule_is_sound {os : OS} (self : BuildSystem) (goal x : string)
        (st st' : State) :
  build self goal st = (Raised (NoRuleToMake x), st') ->
  reach self goal x
  /\ PyDict.mem (targets self) x = false
  /\ path_exists (world st') x = false.
Proof.
  intros B.
  exact (build_fuel_raised self _ goal [] st _ st' ltac:(intros v []) B).
Qed.

Lemma build_no_rule_is_sound_witness :
  let self := mkBuildSystem []
                [("prog", mkTarget ["main.o"] ["touch prog"] "" "General");
                 ("main.o", mkTarget ["main.c"] ["touch main.o"] "" "General")]
                (Some "prog") in
  reach self "prog" "main.c"
  /\ PyDict.mem (targets self) "main.c" = false
  /\ @path_exists Demo.os [] "main.c" = false.
Proof.
  cbv zeta.
  apply (@build_no_rule_is_sound Demo.os _ "prog" "main.c" (@mkState Demo.os [] [])
           (@mkState Demo.os [] [])).
  reflexivity.
Defined.

(** X15.  A "Command failed" error reports the expansion of a command
    that belongs to the goal or to a target among its transitive
    dependencies. *)
Theorem build_command_failed_is_sound {os : OS} (self : BuildSystem)
        (goal c : string) (st st' : State) :
  build self goal st = (Raised (CommandFailed c), st') ->
  exists u info cmd,
    reach self goal u /\ PyDict.get (targets self) u = Some info
    /\ In cmd (commands info) /\ c = expand_vars self cmd.
Proof.
  intros B.
  exact (build_fuel_raised self _ goal [] st _ st' ltac:(intros v []) B).
Qed.

Lemma build_command_failed_is_sound_witness :
  let self := mkBuildSystem [("T", "false")]
                [("all", mkTarget ["lib"] ["touch all"] "" "General");
                 ("lib", mkTarget [] ["touch lib"; "$T"] "" "General")]
                (Some "all") in
  exists u info cmd,
    reach self "all" u /\ PyDict.get (targets self) u = Some info
    /\ In cmd (commands info) /\ "false" = expand_vars self cmd.
Proof.
  cbv zeta.
  apply (@build_command_failed_is_sound Demo.os _ "all" "false"
           (@mkState Demo.os [] [])
           (@mkState Demo.os [("lib", 1%Z)] [("touch lib", 0%Z); ("false", 1%Z)])).
  reflexivity.
Defined.

(** ** The world changes only through commands *)

Section QuietFacts.

Context {os : OS}.
Variable self : BuildSystem.

Lemma quiet_refl (r : outcome) (st : State) : quiet_unless_traced st (r, st).
Proof. exists []. split; [now rewrite app_nil_r|reflexivity]. Qed.

Lemma quiet_seq (st s1 : State) (r1 : outcome) (res : outcome * State) :
  quiet_unless_traced st (r1, s1) -> quiet_unless_traced s1 res ->
  quiet_unless_traced st res.
Proof.
  intros (n1 & T1 & Q1) (n2 & T2 & Q2). cbn [snd] in *.
  exists (n1 ++ n2)%list. split; [now rewrite T2, T1, app_assoc|].
  intros E. apply app_eq_nil in E as [E1 E2].
  now rewrite (Q2 E2), (Q1 E1).
Qed.

Lemma run_commands_quiet (cmds : list string) (st : State) :
  quiet_unless_traced st (run_commands self cmds st).
Proof.
  destruct cmds as [|c cmds]; [apply quiet_refl|].
  destruct (run_commands_spec self (c :: cmds) st)
    as [[_ T]|(ran & c' & rest & rc & _ & _ & _ & T)].
  - eexists. split; [exact T|]. discriminate.
  - eexists. split; [exact T|]. intros E. now destruct ran.
Qed.

Lemma for_each_quiet {A} (body : A -> State -> outcome * State) (l : list A) :
  (forall x st, quiet_unless_traced st (body x st)) ->
  forall st, quiet_unless_traced st (for_each body l st).
Proof.
  intros B. induction l as [|x l IH]; intros st; [apply quiet_refl|].
  cbn [for_each]. pose proof (B x st) as Bx.
  destruct (body x st) as [[|e|] s1]; [|exact Bx..].
  eapply quiet_seq; [exact Bx|apply IH].
Qed.

Lemma build_fuel_quiet (n : nat) :
  forall t visited st, quiet_unless_traced st (build_fuel n self t visited st).
Proof.
  induction n as [|n IH]; intros t visited st; [apply quiet_refl|].
  rewrite build_fuel_S. destruct (in_set visited t); [apply quiet_refl|].
  destruct (PyDict.get (targets self) t) as [info|].
  - pose proof (for_each_quiet (fun dep => build_fuel n self dep (t :: visited))
                  (deps info) (fun x s => IH x (t :: visited) s) st) as F.
    destruct (for_each _ (deps info) st) as [[|e|] s1]; [|exact F..].
    destruct (needs_rebuild self (world s1) t (deps info)); [|exact F].
    eapply quiet_seq; [exact F|apply run_commands_quiet].
  - destruct (negb (path_exists (world st) t)); apply quiet_refl.
Qed.

Lemma quiet_same_trace (st : State) (res : outcome * State) :
  quiet_unless_traced st res -> trace (snd res) = trace st -> snd res = st.
Proof.
  intros (new & T & Q) E. apply Q. rewrite E in T.
  rewrite <- (app_nil_r (trace st)) in T at 1.
  now apply app_inv_head in T.
Qed.

End QuietFacts.

(** X16.  [build] changes the world only by running commands: the trace
    of the state it ends in extends the trace it started with, and when
    no command was run the state is the one it received, whether the
    call returned or raised. *)
Theorem build_quiet_without_commands {os : OS} (self : BuildSystem)
        (goal : string) (st : State) :
  (exists new, trace (snd (build self goal st)) = (trace st ++ new)%list)
  /\ (trace (snd (build self goal st)) = trace st ->
      snd (build self goal st) = st).
Proof.
  pose proof (build_fuel_quiet self (S (List.length (targets self))) goal [] st) as Q.
  split.
  - destruct Q as (new & T & _). now exists new.
  - now apply quiet_same_trace.
Qed.

Lemma build_quiet_without_commands_witness :
  let self := mkBuildSystem []
                [("all", mkTarget ["gone.c"] ["touch all"] "" "General")] (Some "all") in
  let st := @mkState Demo.os [("all", 2%Z)] [("earlier", 0%Z)] in
  snd (@build Demo.os self "all" st) = st.
Proof.
  cbv zeta.
  apply (@build_quiet_without_commands Demo.os
           (mkBuildSystem []
              [("all", mkTarget ["gone.c"] ["touch all"] "" "General")] (Some "all"))
           "all" (@mkState Demo.os [("all", 2%Z)] [("earlier", 0%Z)])).
  reflexivity.
Defined.

(** ** [run] *)

Section RunFacts.

Context {os : OS}.

Lemma run_unfold (argv : list string) (buildfile : option (list string))
      (st : State) :
  run argv buildfile st
  = match parse new_BuildSystem buildfile with
    | Raise e => (Raised e, st)
    | Ok self =>
        if wants_list argv then (Done, st)
        else match goals_of argv with
             | [] =>
                 if truthy (first_target self)
                 then match first_target self with
                      | Some t => for_each (build self) [t] st
                      | None => (Done, st)
                      end
                 else (Done, st)
             | _ :: _ => for_each (build self) (goals_of argv) st
             end
    end.
Proof.
  unfold run, wants_list, goals_of.
  destruct (parse new_BuildSystem buildfile); [|reflexivity].
  destruct (_ || _); [reflexivity|].
  now destruct (filter _ (tl argv)).
Qed.

Lemma for_each_single {A} (body : A -> State -> outcome * State) (x : A)
      (st : State) :
  for_each body [x] st = body x st.
Proof. cbn [for_each]. now destruct (body x st) as [[| |] s]. Qed.

Lemma for_each_app {A} (body : A -> State -> outcome * State) (l1 l2 : list A) :
  forall st,
    for_each body (l1 ++ l2)%list st
    = match for_each body l1 st with
      | (Done, s) => for_each body l2 s
      | r => r
      end.
Proof.
  induction l1 as [|x l1 IH]; intros st; [reflexivity|].
  cbn [app for_each]. destruct (body x st) as [[| |] s]; auto.
Qed.

Lemma parse_never_command_failed (buildfile : option (list string))
      (e : Exception) :
  parse new_BuildSystem buildfile = Raise e ->
  forall c, e <> CommandFailed c.
Proof.
  destruct buildfile as [lines|];
    [|intros [= E] c; rewrite <- E; discriminate].
  rewrite parse_Some.
  destruct (parse_lines 1 lines _) as [ps|e'] eqn:P; [discriminate|].
  intros [= E] c. subst e'.
  destruct (parse_lines_refused lines 1 _ e initial_state_ok P)
    as (pre & l & post & ps' & _ & _ & [[-> _]|[-> _]]); discriminate.
Qed.

End RunFacts.

(** X17.  Over a whole run, with any number of goals: every command run
    returned zero, except that a run that ended with "Command failed" ran
    the reported command last.  So after a failing command nothing more
    is run, neither for the goal at hand nor for the goals after it; and
    when the buildfile is refused nothing is run at all. *)
Theorem run_failure_is_last {os : OS} (argv : list string)
        (buildfile : option (list string)) (st : State) :
  failure_is_last st (run argv buildfile st)
  /\ (forall e, parse new_BuildSystem buildfile = Raise e ->
                run argv buildfile st = (Raised e, st)).
Proof.
  split.
  - rewrite run_unfold.
    destruct (parse new_BuildSystem buildfile) as [self|e] eqn:P.
    + assert (F : forall gs, failure_is_last st (for_each (build self) gs st)).
      { intros gs. apply for_each_failure_is_last. intros g s.
        apply build_fuel_failure_is_last. }
      destruct (wants_list argv); [apply failure_is_last_refl; discriminate|].
      destruct (goals_of argv) as [|g gs]; [|apply F].
      destruct (truthy (first_target self));
        [|apply failure_is_last_refl; discriminate].
      destruct (first_target self);
        [apply F|apply failure_is_last_refl; discriminate].
    + apply failure_is_last_refl. intros c [= E].
      now apply (parse_never_command_failed buildfile e P c).
  - intros e P. unfold run. now rewrite P.
Qed.

Lemma run_failure_is_last_witness :
  let file := ["a:" ++ LF; TAB ++ "false" ++ LF; "b:" ++ LF; TAB ++ "touch b" ++ LF] in
  @run Demo.os ["makeover"; "b"; "a"; "b"] (Some file) (@mkState Demo.os [] [])
  = (Raised (CommandFailed "false"),
     @mkState Demo.os [("b", 1%Z)] [("touch b", 0%Z); ("false", 1%Z)])
  /\ @failure_is_last Demo.os (@mkState Demo.os [] [])
       (@run Demo.os ["makeover"; "b"; "a"; "b"] (Some file) (@mkState Demo.os [] [])).
Proof.
  cbv zeta. split; [reflexivity|].
  apply (@run_failure_is_last Demo.os).
Defined.

(** X18.  With no goal on the command line (arguments starting with [-]
    are not goals) and no listing asked for, [run] builds the first
    target defined in the buildfile, and does nothing when the buildfile
    defines no target or when that first name is empty. *)
Theorem run_default_goal {os : OS} (argv lines : list string)
        (self : BuildSystem) (st : State) :
  parse new_BuildSystem (Some lines) = Ok self ->
  wants_list argv = false ->
  goals_of argv = [] ->
  run argv (Some lines) st
  = match targets self with
    | [] => (Done, st)
    | (t, _) :: _ => if is_empty t then (Done, st) else build self t st
    end.
Proof.
  intros P W G. rewrite run_unfold, P, W, G.
  destruct (parse_Ok_state lines self P) as (ps & _ & (_ & F & _) & <-).
  rewrite F. destruct (targets (model ps)) as [|[t info] rest]; [reflexivity|].
  cbn [PyDict.keys map fst hd_error truthy].
  destruct t as [|c t]; [reflexivity|]. cbn [is_empty]. apply for_each_single.
Qed.

Lemma run_default_goal_witness :
  let lines := ["X=1" ++ LF; "second-first: x" ++ LF; "other:" ++ LF] in
  let self := mkBuildSystem [("X", "1")]
                [("second-first", mkTarget ["x"] [] "" "General");
                 ("other", mkTarget [] [] "" "General")] (Some "second-first") in
  @run Demo.os ["makeover"; "-v"; "--jobs"] (Some lines) (@mkState Demo.os [] [])
  = @build Demo.os self "second-first" (@mkState Demo.os [] []).
Proof.
  cbv zeta.
  exact (@run_default_goal Demo.os ["makeover"; "-v"; "--jobs"]
           ["X=1" ++ LF; "second-first: x" ++ LF; "other:" ++ LF]
           (mkBuildSystem [("X", "1")]
              [("second-first", mkTarget ["x"] [] "" "General");
               ("other", mkTarget [] [] "" "General")] (Some "second-first"))
           (@mkState Demo.os [] []) eq_refl eq_refl eq_refl).
Defined.

(** X19.  The goals of the command line are built from left to right,
    each in the state the one before left; the first goal that raises
    ends the run with its error, and the goals after it are not built. *)
Theorem run_stops_at_first_failing_goal {os : OS} (argv lines : list string)
        (self : BuildSystem) (before : list string) (g : string)
        (after : list string) (st s s' : State) (e : Exception) :
  parse new_BuildSystem (Some lines) = Ok self ->
  wants_list argv = false ->
  goals_of argv = (before ++ g :: after)%list ->
  for_each (build self) before st = (Done, s) ->
  build self g s = (Raised e, s') ->
  run argv (Some lines) st = (Raised e, s').
Proof.
  intros P W G B F. rewrite run_unfold, P, W, G.
  destruct (before ++ g :: after)%list eqn:E; [now destruct before|].
  rewrite <- E, for_each_app, B. cbn [for_each]. now rewrite F.
Qed.

Lemma run_stops_at_first_failing_goal_witness :
  let lines := ["a:" ++ LF; TAB ++ "touch a" ++ LF; "c:" ++ LF; TAB ++ "touch c" ++ LF] in
  @run Demo.os ["makeover"; "a"; "-k"; "b"; "c"] (Some lines) (@mkState Demo.os [] [])
  = (Raised (NoRuleToMake "b"), @mkState Demo.os [("a", 1%Z)] [("touch a", 0%Z)]).
Proof.
  cbv zeta.
  apply (@run_stops_at_first_failing_goal Demo.os
           ["makeover"; "a"; "-k"; "b"; "c"]
           ["a:" ++ LF; TAB ++ "touch a" ++ LF; "c:" ++ LF; TAB ++ "touch c" ++ LF]
           (mkBuildSystem []
              [("a", mkTarget [] ["touch a"] "" "General");
               ("c", mkTarget [] ["touch c"] "" "General")] (Some "a"))
           ["a"] "b" ["c"] (@mkState Demo.os [] [])
           (@mkState Demo.os [("a", 1%Z)] [("touch a", 0%Z)]));
    reflexivity.
Defined.

(** ** [build]: cycles met before anything is run *)

Section CycleDescent.

Context {os : OS}.
Variable self : BuildSystem.








End CycleDescent.



(* ================================================================== *)
(** * Properties of the listing *)
(* ================================================================== *)

Section ListingFacts.

Lemma group_step_same (acc : PyDict.t (list (string * string)))
      (name : string) (info : Target) :
  PyDict.get (group_step acc (name, info)) (group info)
  = Some (match PyDict.get acc (group info) with
          | Some rows => rows
          | None => []
          end ++ [(name, doc info)])%list.
Proof.
  unfold group_step, PyDict.mem.
  destruct (PyDict.get acc (group info)) as [rows|] eqn:G; cbn [negb].
  - rewrite G. apply get_set_same.
  - rewrite get_set_same. apply get_set_same.
Qed.

Lemma group_step_other (acc : PyDict.t (list (string * string)))
      (name : string) (info : Target) (g : string) :
  g <> group info ->
  PyDict.get (group_step acc (name, info)) g = PyDict.get acc g.
Proof.
  intros N. unfold group_step, PyDict.mem.
  destruct (PyDict.get acc (group info)) as [rows|] eqn:G; cbn [negb].
  - rewrite G. now apply get_set_other.
  - rewrite get_set_same. now rewrite !get_set_other.
Qed.

Lemma group_step_NoDup (acc : PyDict.t (list (string * string)))
      (item : string * Target) :
  NoDup (PyDict.keys acc) -> NoDup (PyDict.keys (group_step acc item)).
Proof.
  intros N. destruct item as [name info]. unfold group_step.
  destruct (negb (PyDict.mem acc (group info)));
    destruct (PyDict.get _ (group info)); auto using NoDup_keys_set.
Qed.

(** The loop adds to each group the rows of its targets, in order. *)
Lemma fold_group_step (ts : list (string * Target)) (g : string) :
  forall acc,
    PyDict.get (fold_left group_step ts acc) g
    = match PyDict.get acc g,
            map (fun kv => (fst kv, doc (snd kv)))
                (filter (fun kv => String.eqb (group (snd kv)) g) ts) with
      | Some rows, new => Some (rows ++ new)%list
      | None, [] => None
      | None, new => Some new
      end.
Proof.
  induction ts as [|[name info] ts IH]; intros acc; cbn [fold_left filter map snd fst].
  - destruct (PyDict.get acc g); [now rewrite app_nil_r|reflexivity].
  - rewrite IH. destruct (String.eqb_spec (group info) g) as [<-|N].
    + rewrite group_step_same. cbn [map fst snd].
      destruct (PyDict.get acc (group info)); [now rewrite <- app_assoc|reflexivity].
    + rewrite group_step_other by congruence. reflexivity.
Qed.

Lemma fold_group_step_NoDup (ts : list (string * Target)) :
  forall acc, NoDup (PyDict.keys acc) ->
              NoDup (PyDict.keys (fold_left group_step ts acc)).
Proof.
  induction ts as [|item ts IH]; intros acc N; [exact N|].
  cbn [fold_left]. apply IH. now apply group_step_NoDup.
Qed.

Lemma row_count_set (d : PyDict.t (list (string * string))) (k : string)
      (rows : list (string * string)) :
  row_count (PyDict.set d k rows)
  + List.length (match PyDict.get d k with Some r => r | None => [] end)
  = row_count d + List.length rows.
Proof.
  induction d as [|[k0 r0] d IH]; cbn [PyDict.set PyDict.get row_count fold_right snd].
  - cbn [List.length]. lia.
  - destruct (String.eqb k0 k); cbn [row_count fold_right snd].
    + lia.
    + fold (row_count (PyDict.set d k rows)). fold (row_count d). lia.
Qed.

Lemma length_set (d : PyDict.t (list (string * string))) (k : string)
      (rows : list (string * string)) :
  List.length (PyDict.set d k rows)
  = if PyDict.mem d k then List.length d else S (List.length d).
Proof.
  pose proof (keys_set d k rows) as K. apply (f_equal (@List.length string)) in K.
  unfold PyDict.keys in K. rewrite length_map in K. rewrite K.
  destruct (PyDict.mem d k); [now rewrite length_map|].
  rewrite length_app, length_map. cbn [List.length]. lia.
Qed.

(** Each target adds one row. *)
Lemma group_step_row_count (acc : PyDict.t (list (string * string)))
      (item : string * Target) :
  row_count (group_step acc item) = S (row_count acc).
Proof.
  destruct item as [name info]. unfold group_step, PyDict.mem.
  destruct (PyDict.get acc (group info)) as [rows|] eqn:G; cbn [negb].
  - rewrite G. pose proof (row_count_set acc (group info) (rows ++ [(name, doc info)])) as R.
    rewrite G, length_app in R. cbn [List.length] in R. lia.
  - rewrite get_set_same.
    pose proof (row_count_set acc (group info) []) as R1.
    pose proof (row_count_set (PyDict.set acc (group info) []) (group info)
                  ([] ++ [(name, doc info)])) as R2.
    rewrite G in R1. rewrite get_set_same in R2. cbn [List.length app] in *. lia.
Qed.

Lemma fold_group_step_row_count (ts : list (string * Target)) :
  forall acc, row_count (fold_left group_step ts acc)
              = row_count acc + List.length ts.
Proof.
  induction ts as [|item ts IH]; intros acc; cbn [fold_left List.length]; [lia|].
  rewrite IH, group_step_row_count. lia.
Qed.

Lemma length_group_lines (d : PyDict.t (list (string * string))) :
  List.length (flat_map group_lines d) = List.length d + row_count d.
Proof.
  induction d as [|[g rows] d IH]; [reflexivity|].
  cbn [flat_map group_lines row_count fold_right snd List.length].
  rewrite length_app. cbn [List.length]. rewrite length_map, IH.
  fold (row_count d). lia.
Qed.

Lemma length_spaces_nat (n : nat) : String.length (spaces_nat n) = n.
Proof. induction n; cbn [spaces_nat String.length]; congruence. Qed.

Lemma max_len_bound (rows : list (string * string)) (name docs : string) :
  In (name, docs) rows -> String.length name <= max_len rows.
Proof.
  intros I. unfold max_len. destruct rows as [|r rows]; [destruct I|].
  pose proof (proj1 (list_max_le (map (fun t => String.length (fst t)) (r :: rows)) _)
                (Nat.le_refl _)) as F.
  rewrite Forall_forall in F.
  apply (F (String.length name)). apply in_map_iff. now exists (name, docs).
Qed.

End ListingFacts.

Example list_targets_ex :
  list_targets
    (mkBuildSystem []
       [("all", mkTarget [] [] "Build it" "Main");
        ("clean", mkTarget [] [] "" "Misc");
        ("install", mkTarget [] [] "Copy" "Main")] (Some "all"))
  = ["Available targets:";
     LF ++ ESC ++ "[1;35mMain" ++ ESC ++ "[0m:";
     "  " ++ ESC ++ "[1;34mall" ++ ESC ++ "[0m      " ++ ESC ++ "[90m# Build it" ++ ESC ++ "[0m";
     "  " ++ ESC ++ "[1;34minstall" ++ ESC ++ "[0m  " ++ ESC ++ "[90m# Copy" ++ ESC ++ "[0m";
     LF ++ ESC ++ "[1;35mMisc" ++ ESC ++ "[0m:";
     "  " ++ ESC ++ "[1;34mclean" ++ ESC ++ "[0m  "].
Proof. reflexivity. Qed.

(** X20.  The listing sorts the targets into their groups without losing
    or repeating any: a group is present exactly when some target has
    it, it holds the name and documentation of each of its targets in
    the order of the target table, and no group occurs twice. *)
Theorem group_targets_partition (self : BuildSystem) (g : string) :
  PyDict.get (group_targets self) g
  = match rows_of_group self g with
    | [] => None
    | rows => Some rows
    end
  /\ NoDup (PyDict.keys (group_targets self)).
Proof.
  split.
  - unfold group_targets, rows_of_group. rewrite fold_group_step. reflexivity.
  - apply fold_group_step_NoDup. constructor.
Qed.

(** X21.  Within a group the documentation column is aligned: every name
    followed by its padding is as wide as the longest name of the group
    plus two, so the padding is never cut short. *)
Theorem padding_aligns (rows : list (string * string)) (name docs : string) :
  In (name, docs) rows ->
  String.length (name ++ padding (max_len rows) name) = max_len rows + 2.
Proof.
  intros I. pose proof (max_len_bound rows name docs I) as B.
  rewrite str_length_app. unfold padding, spaces. rewrite length_spaces_nat. lia.
Qed.

Lemma padding_aligns_witness :
  let rows := [("all", "Build"); ("clean", ""); ("x", "y")] in
  String.length ("x" ++ padding (max_len rows) "x") = max_len rows + 2.
Proof.
  cbv zeta.
  apply (padding_aligns [("all", "Build"); ("clean", ""); ("x", "y")] "x" "y").
  simpl. tauto.
Defined.

(** The listing makes one [print] call for the heading, one per group and
    one per target. *)
Lemma list_targets_length (self : BuildSystem) :
  List.length (list_targets self)
  = 1 + List.length (group_targets self) + List.length (targets self).
Proof.
  unfold list_targets, group_targets, PyDict.items. cbn [List.length].
  rewrite length_group_lines, fold_group_step_row_count.
  cbn [row_count fold_right]. lia.
Qed.


Section PrintedFacts.

Lemma count_lf_app (a b : string) : count_lf (a ++ b) = count_lf a + count_lf b.
Proof. induction a as [|c a IH]; cbn [append count_lf]; [reflexivity|lia]. Qed.

Lemma count_lf_spaces (n : nat) : count_lf (spaces_nat n) = 0.
Proof. induction n as [|n IH]; [reflexivity|exact IH]. Qed.

Lemma count_lf_row_line (width : nat) (name docs : string) :
  count_lf name = 0 -> count_lf docs = 0 ->
  count_lf (row_line width (name, docs)) = 0.
Proof.
  intros N D. unfold row_line, padding, spaces.
  destruct (is_empty docs);
    rewrite !count_lf_app, N, ?D, count_lf_spaces; reflexivity.
Qed.

Lemma count_lf_printed_app (l1 l2 : list string) :
  count_lf (printed (l1 ++ l2)) = count_lf (printed l1) + count_lf (printed l2).
Proof.
  induction l1 as [|x l1 IH]; [reflexivity|].
  cbn [app printed]. rewrite !count_lf_app, IH. lia.
Qed.

Lemma count_lf_printed_rows (width : nat) (rows : list (string * string)) :
  (forall name docs, In (name, docs) rows -> count_lf name = 0 /\ count_lf docs = 0) ->
  count_lf (printed (map (row_line width) rows)) = List.length rows.
Proof.
  induction rows as [|[name docs] rows IH]; intros H; [reflexivity|].
  cbn [map printed List.length]. rewrite !count_lf_app.
  destruct (H name docs (or_introl eq_refl)) as [N D].
  rewrite (count_lf_row_line _ _ _ N D), IH; [reflexivity|].
  intros n d I. apply H. now right.
Qed.

Lemma count_lf_printed_groups (d : PyDict.t (list (string * string))) :
  (forall g rows, In (g, rows) d ->
     count_lf g = 0
     /\ forall name docs, In (name, docs) rows ->
                          count_lf name = 0 /\ count_lf docs = 0) ->
  count_lf (printed (flat_map group_lines d)) = 2 * List.length d + row_count d.
Proof.
  induction d as [|[g rows] d IH]; intros H; [reflexivity|].
  cbn [flat_map group_lines]. rewrite count_lf_printed_app.
  destruct (H g rows (or_introl eq_refl)) as [G R].
  cbn [printed]. rewrite !count_lf_app, G, (count_lf_printed_rows _ _ R).
  rewrite IH by (intros g' r' I; apply H; now right).
  cbn [row_count fold_right snd List.length]. fold (row_count d).
  cbn [count_lf LF ESC]. simpl. lia.
Qed.

Lemma In_get_NoDup {V} (d : PyDict.t V) (k : string) (v : V) :
  NoDup (PyDict.keys d) -> In (k, v) d -> PyDict.get d k = Some v.
Proof.
  induction d as [|[k0 v0] d IH]; intros N I; [destruct I|].
  cbn [PyDict.keys map fst] in N. inversion N as [|? ? Nk Nd]; subst.
  cbn [PyDict.get]. destruct I as [[= -> ->]|I].
  - now rewrite String.eqb_refl.
  - destruct (String.eqb_spec k0 k) as [->|_]; [|now apply IH].
    destruct Nk. apply in_map_iff. now exists (k, v).
Qed.

(** Every group of the listing and every row in it come from a target. *)
Lemma group_targets_from_targets (self : BuildSystem) (g : string)
      (rows : list (string * string)) :
  In (g, rows) (PyDict.items (group_targets self)) ->
  (exists name info, In (name, info) (targets self) /\ group info = g)
  /\ forall name docs, In (name, docs) rows ->
        exists info, In (name, info) (targets self) /\ doc info = docs.
Proof.
  intros I. destruct (group_targets_partition self g) as [P N].
  apply (In_get_NoDup _ _ _ N) in I. rewrite I in P.
  assert (R : rows = rows_of_group self g)
    by (destruct (rows_of_group self g); [discriminate|congruence]).
  assert (F : forall name docs, In (name, docs) rows ->
            exists info, In (name, info) (targets self)
                         /\ doc info = docs /\ group info = g).
  { intros name docs Ir. rewrite R in Ir. unfold rows_of_group in Ir.
    apply in_map_iff in Ir as ([n i] & [= <- <-] & If).
    apply filter_In in If as [It E]. apply String.eqb_eq in E.
    now exists i. }
  split.
  - destruct rows as [|[name docs] rows']; [now destruct (rows_of_group self g)|].
    destruct (F name docs (or_introl eq_refl)) as (info & It & _ & E).
    now exists name, info.
  - intros name docs Ir. destruct (F name docs Ir) as (info & It & E & _).
    now exists info.
Qed.

End PrintedFacts.

(** X22.  When no target name, documentation string or group label holds
    a line end, the text the listing prints has one line for the heading
    and, for each group, an empty line, the group's heading line and one
    line per target of the group: [1 + 2 * groups + targets] lines in
    all. *)
Theorem list_targets_printed_lines (self : BuildSystem) :
  (forall name info, In (name, info) (PyDict.items (targets self)) ->
     count_lf name = 0 /\ count_lf (doc info) = 0 /\ count_lf (group info) = 0) ->
  count_lf (printed (list_targets self))
  = 1 + 2 * List.length (PyDict.items (group_targets self))
    + List.length (PyDict.items (targets self)).
Proof.
  intros H. unfold list_targets. cbn [printed].
  rewrite !count_lf_app, count_lf_printed_groups.
  - unfold group_targets at 2, PyDict.items.
    rewrite fold_group_step_row_count. cbn [row_count fold_right]. simpl. lia.
  - intros g rows I.
    destruct (group_targets_from_targets self g rows I) as [(n & i & It & <-) R].
    split; [now apply (H n i)|].
    intros name docs Ir. destruct (R name docs Ir) as (info & It' & <-).
    destruct (H name info It') as (A & B & _). now split.
Qed.

Lemma list_targets_printed_lines_witness :
  let self := mkBuildSystem []
                [("all", mkTarget [] [] "Build it" "Main");
                 ("clean", mkTarget [] [] "" "Misc");
                 ("install", mkTarget [] [] "Copy" "Main")] (Some "all") in
  count_lf (printed (list_targets self)) = 8.
Proof.
  cbv zeta.
  apply (list_targets_printed_lines
           (mkBuildSystem []
              [("all", mkTarget [] [] "Build it" "Main");
               ("clean", mkTarget [] [] "" "Misc");
               ("install", mkTarget [] [] "Copy" "Main")] (Some "all"))).
  intros name info I. simpl in I.
  destruct I as [[= <- <-]|[[= <- <-]|[[= <- <-]|[]]]]; repeat split.
Defined.
